(** * Funding Finder API: the keyword matcher of [main.py]

    A shallow embedding of the category extractor, the bag-of-words
    scorer and the [/match] handler, with the properties the
    specification states about them.

    Modelling conventions.
    - A Python [str] is a [string]: the bytes of its UTF-8 encoding.
      [lower] folds the ASCII letters and [split] cuts at the ASCII
      white space characters; on ASCII text both agree with Python.
    - A Python [float] is the rational number it approximates ([Q]),
      so arithmetic is exact and [round] rounds the exact quotient; the
      int/float distinction of a value is kept by the type [number].
    - A stored document is a record whose fields are each missing, null
      or a value of the schema's type ([field]).
    - A raised exception is a value of the error monad [result]. *)

From Stdlib Require Import ZArith QArith Qround Qminmax Ascii String Lia Lqa.
From stdpp Require Import gmap strings list sorting pretty.

Open Scope Z_scope.

(** ** Python strings *)

Module Py.

(** [c.lower()] on one ASCII character. *)
Definition lower_char (c : ascii) : ascii :=
  let n := N_of_ascii c in
  if ((65 <=? n) && (n <=? 90))%N then ascii_of_N (n + 32) else c.

(** [s.lower()] *)
Fixpoint lower (s : string) : string :=
  match s with
  | EmptyString => EmptyString
  | String c rest => String (lower_char c) (lower rest)
  end.

(** [c.isspace()]: tab, line feed, vertical tab, form feed, carriage
    return, the four separators 0x1c..0x1f and the space. *)
Definition isspace (c : ascii) : bool :=
  let n := N_of_ascii c in
  (((9 <=? n) && (n <=? 13)) || ((28 <=? n) && (n <=? 32)))%N.

(** [s.split()]: the maximal runs of characters that are not white
    space. [word] is the run being read, if one has started. *)
Fixpoint split_from (word : option string) (s : string) : list string :=
  match s with
  | EmptyString =>
      match word with Some w => [w] | None => [] end
  | String c rest =>
      if isspace c then
        match word with
        | Some w => w :: split_from None rest
        | None => split_from None rest
        end
      else
        match word with
        | Some w => split_from (Some (w +:+ String c EmptyString)) rest
        | None => split_from (Some (String c EmptyString)) rest
        end
  end.

Definition split (s : string) : list string := split_from None s.

(** [sep.join(parts)] *)
Fixpoint join (sep : string) (parts : list string) : string :=
  match parts with
  | [] => ""
  | [p] => p
  | p :: rest => p +:+ sep +:+ join sep rest
  end.

(** [needle in hay] on two strings: [needle] starts at some position. *)
Fixpoint str_in (needle hay : string) : bool :=
  String.prefix needle hay ||
  match hay with
  | EmptyString => false
  | String _ rest => str_in needle rest
  end.

(** [x in xs] on a list of strings. *)
Definition list_in (x : string) (xs : list string) : bool :=
  existsb (String.eqb x) xs.

(** [xs or d] on lists: an empty list is falsy. *)
Definition list_or (xs d : list string) : list string :=
  match xs with
  | [] => d
  | _ :: _ => xs
  end.

(** Truth value of an optional string: [None] and [""] are falsy. *)
Definition truthy (o : option string) : bool :=
  match o with
  | Some (String _ _) => true
  | _ => false
  end.

(** [o or d] on an optional string. *)
Definition str_or (o : option string) (d : string) : string :=
  match o with
  | Some (String c rest) => String c rest
  | _ => d
  end.

End Py.

(** ** The category extractor *)

(** The dict literal [KEYWORD_MAP], in its insertion order. *)
Definition KEYWORD_MAP : list (string * list string) :=
  [ ("ai", ["ai"; "artificial intelligence"; "machine learning"; "ml"; "deep learning"]);
    ("health", ["health"; "biotech"; "med"; "clinical"; "healthcare"]);
    ("climate", ["climate"; "environment"; "energy"; "sustainability"; "carbon"]);
    ("education", ["education"; "edtech"; "school"; "learning"; "students"]);
    ("agriculture", ["agriculture"; "agritech"; "farming"; "crop"; "soil"]);
    ("transport", ["transport"; "mobility"; "ev"; "autonomous"; "logistics"]);
    ("cyber", ["cyber"; "security"; "infosec"; "privacy"]) ].

(** [any(kw in text_l for kw in kws)] *)
Definition any_in (kws : list string) (text_l : string) : bool :=
  existsb (fun kw => Py.str_in kw text_l) kws.

(** The body of the [for k, kws in ...] loop: one step on the
    accumulator [cats]. *)
Definition extract_step (text_l : string) (cats : list string)
    (entry : string * list string) : list string :=
  if any_in entry.2 text_l then cats ++ [entry.1] else cats.

Definition extract_loop (table : list (string * list string))
    (text_l : string) (cats : list string) : list string :=
  fold_left (extract_step text_l) table cats.

Definition extract_categories (text : string) : list string :=
  let text_l := Py.lower text in
  let cats := extract_loop KEYWORD_MAP text_l [] in
  Py.list_or cats ["general"].

(** ** Python values: numbers, exceptions, document fields *)

Inductive exn := TypeError | AttributeError.

Inductive result (A : Type) : Type :=
  | Ok (a : A)
  | Raise (e : exn).
Arguments Ok {A} a.
Arguments Raise {A} e.

#[global] Instance result_ret : MRet result := fun A a => Ok a.
#[global] Instance result_bind : MBind result := fun A B f m =>
  match m with
  | Ok a => f a
  | Raise e => Raise e
  end.

(** A field of a stored document: the key is missing, its value is
    null, or it holds a value of the schema's type. *)
Inductive field (A : Type) : Type :=
  | Missing
  | Null
  | Val (a : A).
Arguments Missing {A}.
Arguments Null {A}.
Arguments Val {A} a.

(** [d.get(key)]: [None] is Python's [None]. *)
Definition dict_get {A} (f : field A) : option A :=
  match f with
  | Val a => Some a
  | Missing | Null => None
  end.

(** [d.get(key, default)]: the default replaces a missing key only. *)
Definition dict_get_default {A} (f : field A) (default : A) : option A :=
  match f with
  | Val a => Some a
  | Missing => Some default
  | Null => None
  end.

(** [sep.join(x)] where [x] may be [None]. *)
Definition join_value (sep : string) (x : option (list string)) : result string :=
  match x with
  | Some parts => Ok (Py.join sep parts)
  | None => Raise TypeError
  end.

(** [s + x] where [x] may be [None]. *)
Definition concat_value (s : string) (x : option string) : result string :=
  match x with
  | Some t => Ok (s +:+ t)
  | None => Raise TypeError
  end.

(** [x or []] on an optional list. *)
Definition list_value_or_empty (x : option (list string)) : list string :=
  match x with
  | Some xs => xs
  | None => []
  end.

(** A Python number, int or float. *)
Inductive number :=
  | PyInt (n : Z)
  | PyFloat (x : Q).

Definition num_val (n : number) : Q :=
  match n with
  | PyInt n => inject_Z n
  | PyFloat x => x
  end.

(** [min(a, b)]: [b] replaces [a] only when [b < a]. *)
Definition py_min (a b : number) : number :=
  if Qlt_le_dec (num_val b) (num_val a) then b else a.

(** [max(a, b)]: [b] replaces [a] only when [b > a]. *)
Definition py_max (a b : number) : number :=
  if Qlt_le_dec (num_val a) (num_val b) then b else a.

(** Nearest integer, ties to the even one. *)
Definition round_half_even (x : Q) : Z :=
  let f := Qfloor x in
  match ((x - inject_Z f) ?= (1 # 2))%Q with
  | Lt => f
  | Gt => f + 1
  | Eq => if Z.even f then f else f + 1
  end.

(** [round(x, ndigits)] *)
Definition py_round (x : Q) (ndigits : nat) : Q :=
  let p := inject_Z (10 ^ Z.of_nat ndigits) in
  (inject_Z (round_half_even (x * p)) / p)%Q.

(** ** Documents and requests *)

Record Fundingopportunity := {
  title : field string;
  agency : field string;
  description : field string;
  categories : field (list string);
  eligibility : field (list string);
  region : field string;
  deadline : field string;
  amount : field string;
  url : field string }.

Record MatchRequest := {
  req_description : string;
  req_sector : option string;
  req_region : option string }.

(** ** The scorer *)

(** [set(w for w in s.lower().split())] *)
Definition word_set (s : string) : gset string :=
  list_to_set (Py.split (Py.lower s)).

(** Bag-of-words overlap score (0-100). The join of the categories is
    evaluated, and may raise, before the test on [q_words]. *)
Definition simple_score (query : string) (opportunity : Fundingopportunity)
    : result Q :=
  let q_words := word_set query in
  cats_text ← join_value " " (dict_get_default (categories opportunity) []);
  let desc :=
    Py.str_or (dict_get (description opportunity)) "" +:+ " " +:+ cats_text in
  let o_words := word_set desc in
  if decide (q_words = ∅) then Ok 0%Q
  else
    let overlap := size (q_words ∩ o_words) in
    Ok (py_round
          (Qmin 100 (inject_Z (Z.of_nat overlap)
                     / inject_Z (Z.max 5 (Z.of_nat (size q_words))) * 100)) 2).

(** ** The [/match] handler *)

(** The values interpolated in the text of ["why"]:
    [f"Matched on keywords {cats}; base score {score}, bonuses {bonus}"]. *)
Record Why := {
  why_keywords : list string;
  why_base : Q;
  why_bonus : Z }.

(** One entry of [items]. *)
Record MatchResult := {
  item_title : option string;
  item_agency : option string;
  item_url : option string;
  item_amount : option string;
  item_deadline : option string;
  item_region : option string;
  item_categories : option (list string);
  item_eligibility : option (list string);
  match_score : number;
  why : Why }.

Record Report := {
  query : string;
  detected_categories : list string;
  generated_at : string;
  highlights : list string;
  notes : string }.

Record Response := {
  results : list MatchResult;
  report : Report }.

(** The static examples served when no database is configured. *)
Definition ai_social_good : Fundingopportunity :=
  {| title := Val "AI for Social Good Grants";
     agency := Val "Open Philanthropy";
     description := Val "Funding for artificial intelligence projects that benefit society, including health and education.";
     categories := Val ["ai"; "education"];
     eligibility := Val ["nonprofit"; "researcher"; "startup"];
     region := Val "Global";
     deadline := Val "Rolling";
     amount := Val "$50k-$250k";
     url := Val "https://example.org/ai-social-good" |}.

Definition climate_innovation : Fundingopportunity :=
  {| title := Val "Climate Innovation Fund";
     agency := Val "Green Future Foundation";
     description := Val "Supports climate and energy innovations reducing carbon emissions.";
     categories := Val ["climate"; "energy"];
     eligibility := Val ["startup"; "small business"];
     region := Val "US";
     deadline := Val "2025-03-01";
     amount := Val "$100k-$1M";
     url := Val "https://example.org/climate-innovation" |}.

Definition digital_health : Fundingopportunity :=
  {| title := Val "Digital Health Seed Grants";
     agency := Val "HealthTech Council";
     description := Val "Early-stage grants for digital health apps and clinical decision support.";
     categories := Val ["health"; "ai"];
     eligibility := Val ["researcher"; "startup"];
     region := Val "EU";
     deadline := Val "2025-05-01";
     amount := Val "€50k-€200k";
     url := Val "https://example.org/digital-health" |}.

Definition sample_opportunities : list Fundingopportunity :=
  [ai_social_good; climate_innovation; digital_health].

(** The text the extractor reads:
    [req.description + " " + (req.sector or "")]. *)
Definition extractor_input (req : MatchRequest) : string :=
  req_description req +:+ " " +:+ Py.str_or (req_sector req) "".

(** The condition of the region filter's [if ...: continue]:
    [req.region and opp.get("region") and
     req.region.lower() not in opp.get("region").lower()]. *)
Definition region_skip (req : MatchRequest) (opp : Fundingopportunity) : bool :=
  Py.truthy (req_region req) &&
  Py.truthy (dict_get (region opp)) &&
  negb (Py.str_in (Py.lower (default "" (req_region req)))
                  (Py.lower (default "" (dict_get (region opp))))).

(** [any(c in (opp.get("categories") or []) for c in cats)] *)
Definition category_hit (cats : list string) (opp : Fundingopportunity) : bool :=
  existsb (fun c => Py.list_in c (list_value_or_empty (dict_get (categories opp))))
          cats.

(** [req.sector and req.sector.lower() in
     (" ".join(opp.get("categories", [])) + " " + opp.get("description", "")).lower()] *)
Definition sector_hit (req : MatchRequest) (opp : Fundingopportunity)
    : result bool :=
  if Py.truthy (req_sector req) then
    cats_text ← join_value " " (dict_get_default (categories opp) []);
    text ← concat_value (cats_text +:+ " ") (dict_get_default (description opp) "");
    Ok (Py.str_in (Py.lower (default "" (req_sector req))) (Py.lower text))
  else Ok false.

(** [bonus], as it stands after the two [if]s. *)
Definition bonus_of (cats : list string) (req : MatchRequest)
    (opp : Fundingopportunity) : result Z :=
  let bonus := 0 in
  let bonus := if category_hit cats opp then bonus + 15 else bonus in
  hit ← sector_hit req opp;
  Ok (if hit : bool then bonus + 10 else bonus).

(** [max(0, min(100, score + bonus))] *)
Definition final_score (score : Q) (bonus : Z) : number :=
  py_max (PyInt 0) (py_min (PyInt 100) (PyFloat (score + inject_Z bonus))).

(** The body of the loop for an opportunity that passed the filter. *)
Definition score_opportunity (cats : list string) (req : MatchRequest)
    (opp : Fundingopportunity) : result MatchResult :=
  score ← simple_score (req_description req) opp;
  bonus ← bonus_of cats req opp;
  let final := final_score score bonus in
  Ok {| item_title := dict_get (title opp);
        item_agency := dict_get (agency opp);
        item_url := dict_get (url opp);
        item_amount := dict_get (amount opp);
        item_deadline := dict_get (deadline opp);
        item_region := dict_get (region opp);
        item_categories := dict_get_default (categories opp) [];
        item_eligibility := dict_get_default (eligibility opp) [];
        match_score := final;
        why := {| why_keywords := cats; why_base := score; why_bonus := bonus |} |}.

(** [for opp in sample: ...], appending to [items]. *)
Fixpoint match_loop (cats : list string) (req : MatchRequest)
    (sample : list Fundingopportunity) (items : list MatchResult)
    : result (list MatchResult) :=
  match sample with
  | [] => Ok items
  | opp :: rest =>
      if region_skip req opp then match_loop cats req rest items
      else
        item ← score_opportunity cats req opp;
        match_loop cats req rest (items ++ [item])
  end.

(** [items.sort(key=lambda x: x["match_score"], reverse=True)].
    Python's sort is stable, also under [reverse=True]: items with equal
    keys keep their order. Inserting each item, from the last to the
    first, in front of the first item whose key is not larger gives that
    list. *)
Definition sort_key (x : MatchResult) : Q := num_val (match_score x).

Fixpoint insert_desc (x : MatchResult) (l : list MatchResult) : list MatchResult :=
  match l with
  | [] => [x]
  | y :: rest =>
      if Qlt_le_dec (sort_key x) (sort_key y) then y :: insert_desc x rest
      else x :: y :: rest
  end.

Definition sort_desc (items : list MatchResult) : list MatchResult :=
  foldr insert_desc [] items.

(** *** Text of the report *)

Definition digit (d : Z) : string :=
  String (ascii_of_N (48 + Z.to_N d)) EmptyString.

(** [str(n)] for an int. *)
Definition repr_int (n : Z) : string :=
  if n <? 0 then "-" +:+ pretty (Z.abs n) else pretty n.

(** [repr(x)] for a float with at most two decimals, which is what the
    handler formats: a base score rounded to two places plus an integer
    bonus. At least one decimal is printed, as in [75.0]. (Digits that
    the binary addition may leave further right are not part of the
    rational model.) *)
Definition repr_float (x : Q) : string :=
  let h := round_half_even (x * 100) in
  let a := Z.abs h in
  (if h <? 0 then "-" else "") +:+
  pretty (a / 100) +:+ "." +:+ digit (a mod 100 / 10) +:+
  (if a mod 10 =? 0 then "" else digit (a mod 10)).

Definition repr_number (n : number) : string :=
  match n with
  | PyInt n => repr_int n
  | PyFloat x => repr_float x
  end.

(** An optional string inside an f-string: [None] prints as its name. *)
Definition format_value (o : option string) : string :=
  match o with
  | Some s => s
  | None => "None"
  end.

(** [f"1) {x['title']} — {x['agency']} (Score {x['match_score']})"] *)
Definition summary_line (x : MatchResult) : string :=
  "1) " +:+ format_value (item_title x) +:+ " — " +:+
  format_value (item_agency x) +:+ " (Score " +:+
  repr_number (match_score x) +:+ ")".

(** The handler. [db] is [None] when no database is configured and
    otherwise holds what [get_documents("fundingopportunity", {})]
    returns; [utcnow] is [datetime.utcnow().isoformat()]. *)
Definition match_opportunities (db : option (list Fundingopportunity))
    (utcnow : string) (req : MatchRequest) : result Response :=
  let sample :=
    match db with
    | None => sample_opportunities
    | Some documents => documents
    end in
  let cats := extract_categories (extractor_input req) in
  items ← match_loop cats req sample [];
  let items := sort_desc items in
  let top3 := take 3 items in
  let summary_lines := map summary_line top3 in
  let report :=
    {| query := req_description req;
       detected_categories := cats;
       generated_at := utcnow +:+ "Z";
       highlights := summary_lines;
       notes := "Scores are heuristic. Add more data to improve matches." |} in
  Ok {| results := take 10 items; report := report |}.

(** ** Specification-side notions *)

(** [kw] occurs somewhere in [text]. *)
Definition occurs (kw text : string) : Prop :=
  ∃ pre post, text = pre +:+ kw +:+ post.

(** Some trigger of tag [k] occurs in the lower-cased [text]. *)
Definition triggered (text k : string) : Prop :=
  ∃ kws kw, (k, kws) ∈ KEYWORD_MAP ∧ kw ∈ kws ∧ occurs kw (Py.lower text).

(** The tags of [table] with a trigger in [text_l], in table order. *)
Fixpoint triggered_tags (table : list (string * list string))
    (text_l : string) : list string :=
  match table with
  | [] => []
  | (k, kws) :: rest =>
      if any_in kws text_l then k :: triggered_tags rest text_l
      else triggered_tags rest text_l
  end.

(** The comparison text of the scorer as the specification words it:
    the description, empty when absent, then the space-joined
    categories. *)
Definition comparison_text (opp : Fundingopportunity) : string :=
  default "" (dict_get (description opp)) +:+ " " +:+
  Py.join " " (default [] (dict_get (categories opp))).

(** The base score of the specification on two texts. *)
Definition base_score_formula (query text : string) : Q :=
  let q := word_set query in
  let o := word_set text in
  py_round
    (Qmin 100 (inject_Z (Z.of_nat (size (q ∩ o)))
               / inject_Z (Z.max 5 (Z.of_nat (size q))) * 100)) 2.


(** The text the sector hint is looked up in: the space-joined
    categories, then the description. *)
Definition sector_text (opp : Fundingopportunity) : string :=
  Py.join " " (default [] (dict_get (categories opp))) +:+ " " +:+
  default "" (dict_get (description opp)).

(** The documents the handler scores. *)
Definition fetched (db : option (list Fundingopportunity))
    : list Fundingopportunity :=
  match db with
  | None => sample_opportunities
  | Some documents => documents
  end.

#[global] Instance Qeq_decision (x y : Q) : Decision (x == y)%Q := Qeq_dec x y.

(** Items of a given score. *)
Definition with_score (s : Q) (l : list MatchResult) : list MatchResult :=
  filter (λ x, sort_key x == s)%Q l.

(** [l] is in descending order of score. *)
Definition descending (l : list MatchResult) : Prop :=
  StronglySorted (λ x y, sort_key y <= sort_key x)%Q l.

(** The categories list of a document, empty when missing or null. *)
Definition category_list (opp : Fundingopportunity) : list string :=
  default [] (dict_get (categories opp)).

(** A non-empty sector hint occurs, lower-cased, in the lower-cased
    sector text. *)
Definition sector_matches (req : MatchRequest) (opp : Fundingopportunity)
    : Prop :=
  ∃ hint, req_sector req = Some hint ∧ hint ≠ "" ∧
          occurs (Py.lower hint) (Py.lower (sector_text opp)).

(** The bonus as the specification words it: 15 for a shared category
    tag, and 10 whenever the request carries a sector hint that occurs
    in the sector text. *)
Definition claimed_bonus (cats : list string) (req : MatchRequest)
    (opp : Fundingopportunity) : Z :=
  (if category_hit cats opp then 15 else 0) +
  match req_sector req with
  | Some hint =>
      if Py.str_in (Py.lower hint) (Py.lower (sector_text opp)) then 10 else 0
  | None => 0
  end.

(** The region filter as the specification words it: the document has
    a region value and the lower-cased hint does not occur in it. *)
Definition claimed_region_excluded (req : MatchRequest)
    (opp : Fundingopportunity) : Prop :=
  ∃ hint r, req_region req = Some hint ∧ dict_get (region opp) = Some r ∧
            ¬ occurs (Py.lower hint) (Py.lower r).

(** The region filter of the handler: the region value is moreover
    not empty. *)
Definition region_excluded (req : MatchRequest) (opp : Fundingopportunity)
    : Prop :=
  ∃ hint r, req_region req = Some hint ∧ dict_get (region opp) = Some r ∧
            r ≠ "" ∧ ¬ occurs (Py.lower hint) (Py.lower r).

(** The documents that pass the region filter, in their order. *)
Definition region_kept (req : MatchRequest)
    (sample : list Fundingopportunity) : list Fundingopportunity :=
  filter (λ opp, region_skip req opp = false) sample.

(** [items] are the scored documents of [sample], one each, in order. *)
Definition scored_in_order (cats : list string) (req : MatchRequest)
    (sample : list Fundingopportunity) (items : list MatchResult) : Prop :=
  Forall2 (λ opp item, score_opportunity cats req opp = Ok item) sample items.

(** ** Concrete requests and documents *)

Definition climate_req : MatchRequest :=
  {| req_description := "climate energy carbon reduction";
     req_sector := None;
     req_region := Some "US" |}.

(** A request whose sector hint is the empty string. *)
Definition blank_sector_req : MatchRequest :=
  {| req_description := "climate"; req_sector := Some ""; req_region := None |}.

Definition eu_req : MatchRequest :=
  {| req_description := "climate"; req_sector := None; req_region := Some "EU" |}.

Definition us_lower_req : MatchRequest :=
  {| req_description := "climate"; req_sector := None; req_region := Some "us" |}.

Definition no_region_req : MatchRequest :=
  {| req_description := "climate"; req_sector := None; req_region := None |}.

(** A stored document whose region is the empty string. *)
Definition blank_region_doc : Fundingopportunity :=
  {| title := Val "Open Call";
     agency := Val "City Fund";
     description := Val "Grants for climate work.";
     categories := Val ["climate"];
     eligibility := Val [];
     region := Val "";
     deadline := Null;
     amount := Null;
     url := Null |}.

Definition health_ai_req : MatchRequest :=
  {| req_description := "digital health and artificial intelligence";
     req_sector := None;
     req_region := None |}.

Definition garden_req : MatchRequest :=
  {| req_description := "community garden"; req_sector := None; req_region := None |}.

Definition garden_health_req : MatchRequest :=
  {| req_description := "community garden";
     req_sector := Some "health";
     req_region := None |}.

(** Stored documents with a null field. *)
Definition null_categories_doc : Fundingopportunity :=
  {| title := Val "Open Call";
     agency := Val "City Fund";
     description := Val "Grants for garden work.";
     categories := Null;
     eligibility := Val [];
     region := Missing;
     deadline := Missing;
     amount := Missing;
     url := Missing |}.

Definition null_description_doc : Fundingopportunity :=
  {| title := Val "Open Call";
     agency := Val "City Fund";
     description := Null;
     categories := Val ["health"];
     eligibility := Val [];
     region := Missing;
     deadline := Missing;
     amount := Missing;
     url := Missing |}.

(** ** Further specification-side notions *)

(** The words of a document as the scorer reads them. *)
Definition opportunity_words (opp : Fundingopportunity) : gset string :=
  word_set (comparison_text opp).

(** The number of query words found among the document's words. *)
Definition overlap_count (query : string) (opp : Fundingopportunity) : nat :=
  size (word_set query ∩ opportunity_words opp).

(** A document the handler can score for a request: its categories are
    not null, and its description is not null when the request carries a
    non-empty sector hint. *)
Definition scorable (req : MatchRequest) (opp : Fundingopportunity) : Prop :=
  categories opp ≠ Null ∧
  (description opp = Null → Py.truthy (req_sector req) = false).

(** The climate sample written in capitals. *)
Definition climate_innovation_caps : Fundingopportunity :=
  {| title := Val "CLIMATE INNOVATION FUND";
     agency := Val "GREEN FUTURE FOUNDATION";
     description := Val "SUPPORTS CLIMATE AND ENERGY INNOVATIONS REDUCING CARBON EMISSIONS.";
     categories := Val ["Climate"; "ENERGY"];
     eligibility := Val ["startup"; "small business"];
     region := Val "us";
     deadline := Val "2025-03-01";
     amount := Val "$100k-$1M";
     url := Val "https://example.org/climate-innovation" |}.

(** Some character of [s] is white space. *)
Fixpoint has_space (s : string) : bool :=
  match s with
  | EmptyString => false
  | String c rest => Py.isspace c || has_space rest
  end.

(** Every character of [s] is white space. *)
Fixpoint all_space (s : string) : bool :=
  match s with
  | EmptyString => true
  | String c rest => Py.isspace c && all_space rest
  end.

(** A word: not empty and free of white space. *)
Definition is_word (w : string) : Prop := w ≠ "" ∧ has_space w = false.

(** ** The [/test] endpoint *)

(** What a call does: return a value, or raise an exception [e] with
    the given [str(e)]. *)
Inductive outcome (A : Type) : Type :=
  | Returns (a : A)
  | Raises (message : string).
Arguments Returns {A} a.
Arguments Raises {A} message.

(** The database handle as [test_database] uses it: its [name]
    attribute, if it has one, and what [list_collection_names()] does. *)
Record Database := {
  db_name : option string;
  list_collection_names : outcome (list string) }.

(** The [response] dict; [None] is Python's [None]. *)
Record TestResponse := {
  backend : string;
  database : string;
  database_url : option string;
  database_name : option string;
  connection_status : string;
  collections : list string }.

Definition set_database (v : string) (r : TestResponse) : TestResponse :=
  {| backend := backend r; database := v; database_url := database_url r;
     database_name := database_name r;
     connection_status := connection_status r; collections := collections r |}.

Definition set_database_url (v : string) (r : TestResponse) : TestResponse :=
  {| backend := backend r; database := database r; database_url := Some v;
     database_name := database_name r;
     connection_status := connection_status r; collections := collections r |}.

Definition set_database_name (v : string) (r : TestResponse) : TestResponse :=
  {| backend := backend r; database := database r; database_url := database_url r;
     database_name := Some v;
     connection_status := connection_status r; collections := collections r |}.

Definition set_connection_status (v : string) (r : TestResponse) : TestResponse :=
  {| backend := backend r; database := database r; database_url := database_url r;
     database_name := database_name r;
     connection_status := v; collections := collections r |}.

Definition set_collections (v : list string) (r : TestResponse) : TestResponse :=
  {| backend := backend r; database := database r; database_url := database_url r;
     database_name := database_name r;
     connection_status := connection_status r; collections := v |}.

(** [s[:n]] on a string. *)
Fixpoint str_take (n : nat) (s : string) : string :=
  match n, s with
  | S n', String c rest => String c (str_take n' rest)
  | _, _ => EmptyString
  end.

(** [test_database()]. [db] is the module's database handle, [None]
    when none is configured; [DATABASE_URL] and [DATABASE_NAME] are
    what [os.getenv] returns for these names. The statements of the
    outer [try] raise nothing here, so its handler is not entered. *)
Definition test_database (db : option Database)
    (DATABASE_URL DATABASE_NAME : option string) : TestResponse :=
  let response :=
    {| backend := "✅ Running";
       database := "❌ Not Available";
       database_url := None;
       database_name := None;
       connection_status := "Not Connected";
       collections := [] |} in
  let response :=
    match db with
    | Some handle =>
        let response := set_database "✅ Available" response in
        let response := set_database_url "✅ Configured" response in
        let response :=
          set_database_name (default "✅ Connected" (db_name handle)) response in
        let response := set_connection_status "Connected" response in
        match list_collection_names handle with
        | Returns names =>
            let response := set_collections (take 10 names) response in
            set_database "✅ Connected & Working" response
        | Raises message =>
            set_database ("⚠️  Connected but Error: " +:+ str_take 50 message)
                         response
        end
    | None => set_database "⚠️  Available but not initialized" response
    end in
  let response :=
    set_database_url (if Py.truthy DATABASE_URL then "✅ Set" else "❌ Not Set")
                     response in
  let response :=
    set_database_name (if Py.truthy DATABASE_NAME then "✅ Set" else "❌ Not Set")
                      response in
  response.

(** * Properties *)

(** ** Strings *)

Lemma prefix_spec needle hay :
  String.prefix needle hay = true ↔ ∃ post, hay = needle +:+ post.
Proof.
  revert hay. induction needle as [|a needle IH]; intros hay.
  - split; [intros _; by exists hay | by destruct hay].
  - destruct hay as [|b hay]; cbn.
    + split; [done | intros [post Hp]; discriminate].
    + destruct (ascii_dec a b) as [->|Hne].
      * rewrite IH. split; intros [post Hp]; exists post.
        -- by rewrite Hp.
        -- by injection Hp.
      * split; [done | intros [post Hp]; injection Hp; intros; congruence].
Qed.

Lemma append_assoc (a b c : string) : (a +:+ b) +:+ c = a +:+ b +:+ c.
Proof.
  induction a as [|x a IH]; [done|].
  change (String x ((a +:+ b) +:+ c) = String x (a +:+ b +:+ c)).
  by rewrite IH.
Qed.

Lemma str_in_nil needle :
  Py.str_in needle "" = String.prefix needle "".
Proof. unfold Py.str_in. apply orb_false_r. Qed.

Lemma str_in_cons needle c hay :
  Py.str_in needle (String c hay) =
  String.prefix needle (String c hay) || Py.str_in needle hay.
Proof. reflexivity. Qed.

Lemma str_in_spec needle hay :
  Py.str_in needle hay = true ↔ occurs needle hay.
Proof.
  unfold occurs. induction hay as [|c hay IH].
  - rewrite str_in_nil, prefix_spec. split.
    + intros [post Hp]. by exists "", post.
    + intros ([|? pre] & post & Hp); [by exists post | discriminate].
  - rewrite str_in_cons, orb_true_iff, prefix_spec, IH. split.
    + intros [[post Hp] | (pre & post & Hp)].
      * by exists "", post.
      * exists (String c pre), post. cbn. by rewrite Hp.
    + intros ([|c' pre] & post & Hp).
      * left. by exists post.
      * right. exists pre, post. cbn in Hp. by injection Hp.
Qed.

Lemma any_in_spec kws text_l :
  any_in kws text_l = true ↔ ∃ kw, kw ∈ kws ∧ occurs kw text_l.
Proof.
  unfold any_in. rewrite existsb_exists. split.
  - intros (kw & Hin & Hs). exists kw.
    by rewrite list_elem_of_In, <- str_in_spec.
  - intros (kw & Hin & Hs). exists kw.
    by rewrite <- list_elem_of_In, str_in_spec.
Qed.

Example lower_example : Py.lower "Carbon-Neutral EU 2030" = "carbon-neutral eu 2030".
Proof. reflexivity. Qed.

Example split_example :
  Py.split (String "009" " climate  energy" +:+ String "010" "carbon ")
  = ["climate"; "energy"; "carbon"].
Proof. reflexivity. Qed.

Example split_blank : Py.split "   " = [].
Proof. reflexivity. Qed.

Example join_example : Py.join " " ["climate"; "energy"] = "climate energy".
Proof. reflexivity. Qed.

Example str_in_examples :
  Py.str_in "ai" "said" = true ∧ Py.str_in "" "x" = true ∧
  Py.str_in "eu" "us" = false.
Proof. by vm_compute. Qed.

(** ** The category extractor *)

Example extract_ai_health :
  extract_categories "artificial intelligence for healthcare" = ["ai"; "health"].
Proof. reflexivity. Qed.

Example extract_none : extract_categories "quantum widgets" = ["general"].
Proof. reflexivity. Qed.

Example extract_inside_word : extract_categories "she SAID so" = ["ai"].
Proof. reflexivity. Qed.


Lemma extract_loop_tags table text_l cats :
  extract_loop table text_l cats = cats ++ triggered_tags table text_l.
Proof.
  unfold extract_loop. revert cats.
  induction table as [|[k kws] table IH]; intros cats; simpl.
  - by rewrite app_nil_r.
  - rewrite IH. unfold extract_step; simpl.
    destruct (any_in kws text_l); [by rewrite <- app_assoc | done].
Qed.

Lemma triggered_tags_sublist table text_l :
  triggered_tags table text_l `sublist_of` table.*1.
Proof.
  induction table as [|[k kws] table IH]; simpl; [constructor|].
  destruct (any_in kws text_l); by constructor.
Qed.

Lemma elem_of_triggered_tags table text_l k :
  k ∈ triggered_tags table text_l ↔
  ∃ kws, (k, kws) ∈ table ∧ any_in kws text_l = true.
Proof.
  induction table as [|[k' kws'] table IH]; simpl.
  - split; [by intros ?%elem_of_nil | by intros (? & ?%elem_of_nil & _)].
  - destruct (any_in kws' text_l) eqn:Hany.
    + rewrite elem_of_cons, IH. split.
      * intros [-> | (kws & Hin & Hk)].
        -- exists kws'. split; [left | done].
        -- exists kws. split; [by right | done].
      * intros (kws & [Heq | Hin]%elem_of_cons & Hk).
        -- left. congruence.
        -- right. by exists kws.
    + rewrite IH. split.
      * intros (kws & Hin & Hk). exists kws. split; [by right | done].
      * intros (kws & [Heq | Hin]%elem_of_cons & Hk).
        -- congruence.
        -- by exists kws.
Qed.

Lemma keyword_tags_NoDup : NoDup KEYWORD_MAP.*1.
Proof. by apply (bool_decide_unpack _). Qed.

Lemma general_not_a_tag : "general" ∉ KEYWORD_MAP.*1.
Proof. by apply (bool_decide_unpack _). Qed.

Lemma triggered_tags_spec text k :
  k ∈ triggered_tags KEYWORD_MAP (Py.lower text) ↔ triggered text k.
Proof.
  rewrite elem_of_triggered_tags. unfold triggered.
  split.
  - intros (kws & Hin & (kw & Hkw & Hocc)%any_in_spec). by exists kws, kw.
  - intros (kws & kw & Hin & Hkw & Hocc). exists kws. split; [done|].
    apply any_in_spec. by exists kw.
Qed.

(** C6. For every text, [extract_categories] returns a non-empty list
    without repetition; a tag of the keyword map is in it exactly when
    one of the tag's triggers occurs in the lower-cased text; when some
    trigger occurs the tags come in the declared order of the map (the
    result is a sublist of the map's keys); and when no trigger occurs
    the result is exactly ["general"]. *)
Theorem extract_categories_spec (text : string) :
  let cats := extract_categories text in
  cats ≠ [] ∧
  NoDup cats ∧
  (∀ k, k ∈ KEYWORD_MAP.*1 → k ∈ cats ↔ triggered text k) ∧
  ((∃ k, triggered text k) → cats `sublist_of` KEYWORD_MAP.*1) ∧
  ((∀ k, ¬ triggered text k) → cats = ["general"]).
Proof.
  unfold extract_categories. rewrite extract_loop_tags, app_nil_l.
  pose proof (triggered_tags_sublist KEYWORD_MAP (Py.lower text)) as Hsub.
  pose proof (triggered_tags_spec text) as Hspec.
  destruct (triggered_tags KEYWORD_MAP (Py.lower text)) as [|t tags] eqn:Htags;
    cbn [Py.list_or].
  - split_and!; [done | apply NoDup_singleton | | | done].
    + intros k Hk. rewrite <- Hspec. split.
      * intros ->%list_elem_of_singleton. by destruct general_not_a_tag.
      * by intros ?%elem_of_nil.
    + intros [k Hk]. apply Hspec in Hk. by apply elem_of_nil in Hk.
  - split_and!; [done | | | done |].
    + eapply sublist_NoDup; [exact keyword_tags_NoDup | exact Hsub].
    + intros k _. apply Hspec.
    + intros Hnone. destruct (Hnone t). apply Hspec. left.
Qed.

(** ** The scorer *)


Lemma str_or_default (o : option string) : Py.str_or o "" = default "" o.
Proof. by destruct o as [[|c s]|]. Qed.

Lemma simple_score_unfold query opp cats :
  dict_get_default (categories opp) [] = Some cats →
  simple_score query opp =
  let q := word_set query in
  let o := word_set (default "" (dict_get (description opp)) +:+ " " +:+
                     Py.join " " cats) in
  if decide (q = ∅) then Ok 0%Q
  else Ok (py_round
             (Qmin 100 (inject_Z (Z.of_nat (size (q ∩ o)))
                        / inject_Z (Z.max 5 (Z.of_nat (size q))) * 100)) 2).
Proof.
  intros Hc. unfold simple_score. rewrite Hc. cbn [join_value mbind result_bind].
  by rewrite str_or_default.
Qed.

Lemma categories_not_null opp :
  categories opp ≠ Null →
  dict_get_default (categories opp) [] =
  Some (default [] (dict_get (categories opp))).
Proof. by destruct (categories opp). Qed.

Lemma base_score_formula_empty query text :
  word_set query = ∅ → (base_score_formula query text == 0)%Q.
Proof.
  intros Hq. unfold base_score_formula. cbv zeta.
  rewrite Hq, intersection_empty_l_L, size_empty. reflexivity.
Qed.



Example simple_score_climate :
  ∃ s, simple_score "climate energy carbon reduction" climate_innovation = Ok s ∧
       (s == 60)%Q.
Proof. eexists. split; [vm_compute; reflexivity | reflexivity]. Qed.

(** ** Bonuses and the final score *)

Lemma list_in_spec c xs : Py.list_in c xs = true ↔ c ∈ xs.
Proof.
  unfold Py.list_in. rewrite existsb_exists. split.
  - intros (x & Hin & ->%String.eqb_eq). by apply list_elem_of_In.
  - intros Hin. exists c. split; [by apply list_elem_of_In | apply String.eqb_refl].
Qed.

Lemma category_hit_spec cats opp :
  category_hit cats opp = true ↔ ∃ c, c ∈ cats ∧ c ∈ category_list opp.
Proof.
  unfold category_hit, category_list. rewrite existsb_exists.
  assert (list_value_or_empty (dict_get (categories opp))
          = default [] (dict_get (categories opp))) as -> by by destruct (categories opp).
  split; intros (c & Hc & Hin); exists c.
  - by rewrite list_elem_of_In, <- list_in_spec.
  - by rewrite <- list_elem_of_In, list_in_spec.
Qed.

Lemma occurs_empty text : occurs (Py.lower "") text.
Proof. by exists "", text. Qed.

Lemma sector_hit_spec req opp hit :
  sector_hit req opp = Ok hit → hit = true ↔ sector_matches req opp.
Proof.
  unfold sector_hit, sector_matches, sector_text.
  destruct (req_sector req) as [hint|].
  2: { intros [= <-]. split; [done | by intros (? & [=] & _)]. }
  destruct (decide (hint = "")) as [->|Hne].
  { intros [= <-]. split; [done | by intros (? & [= <-] & ? & _)]. }
  assert (Py.truthy (Some hint) = true) as -> by (by destruct hint).
  change (default "" (Some hint)) with hint.
  destruct (categories opp) as [| |cs], (description opp) as [| |d];
    cbn [mbind result_bind join_value concat_value dict_get dict_get_default
         default from_option id]; try done;
    rewrite append_assoc;
    (intros Heq;
     match type of Heq with
     | Ok ?b = _ => assert (hit = b) as -> by congruence
     end; clear Heq; rewrite str_in_spec;
     (split; [ intros Hocc; by exists hint | by intros (? & [= <-] & _ & Hocc) ])).
Qed.

Lemma bonus_of_inv cats req opp bonus :
  bonus_of cats req opp = Ok bonus →
  ∃ hit, sector_hit req opp = Ok hit ∧
         bonus = (if category_hit cats opp then 15 else 0)
                 + (if hit then 10 else 0).
Proof.
  unfold bonus_of. destruct (sector_hit req opp) as [hit|e]; cbn; [|done].
  intros [= <-]. exists hit. split; [done|].
  destruct (category_hit cats opp), hit; reflexivity.
Qed.

Lemma score_opportunity_inv cats req opp item :
  score_opportunity cats req opp = Ok item →
  ∃ base bonus,
    simple_score (req_description req) opp = Ok base ∧
    bonus_of cats req opp = Ok bonus ∧
    match_score item = final_score base bonus ∧
    why item = {| why_keywords := cats; why_base := base; why_bonus := bonus |} ∧
    item_title item = dict_get (title opp) ∧
    item_agency item = dict_get (agency opp) ∧
    item_region item = dict_get (region opp).
Proof.
  unfold score_opportunity.
  destruct (simple_score (req_description req) opp) as [base|e]; cbn; [|done].
  destruct (bonus_of cats req opp) as [bonus|e]; cbn; [|done].
  intros [= <-]. by exists base, bonus.
Qed.

Lemma simple_score_total query opp :
  categories opp ≠ Null → ∃ s, simple_score query opp = Ok s.
Proof.
  intros Hc%categories_not_null. rewrite (simple_score_unfold _ _ _ Hc).
  cbv zeta. destruct (decide (word_set query = ∅)); by eexists.
Qed.

Lemma sector_hit_total req opp :
  categories opp ≠ Null → description opp ≠ Null →
  ∃ hit, sector_hit req opp = Ok hit.
Proof.
  intros Hc Hd. unfold sector_hit.
  destruct (Py.truthy (req_sector req)); [|by eexists].
  destruct (categories opp), (description opp); try done; by eexists.
Qed.

(** Scoring completes on every document whose description and
    categories are not null; any field may be missing. *)
Lemma score_opportunity_total cats req opp :
  categories opp ≠ Null → description opp ≠ Null →
  ∃ item, score_opportunity cats req opp = Ok item.
Proof.
  intros Hc Hd. unfold score_opportunity, bonus_of.
  destruct (simple_score_total (req_description req) opp Hc) as [s ->].
  destruct (sector_hit_total req opp Hc Hd) as [hit ->].
  by eexists.
Qed.




(** ** The loop over the documents *)

Lemma region_kept_cons req opp rest :
  region_kept req (opp :: rest) =
  if region_skip req opp then region_kept req rest
  else opp :: region_kept req rest.
Proof.
  unfold region_kept. destruct (region_skip req opp) eqn:Hskip.
  - by rewrite filter_cons_False by (by rewrite Hskip).
  - by rewrite filter_cons_True.
Qed.

Lemma match_loop_inv cats req sample acc items :
  match_loop cats req sample acc = Ok items →
  ∃ new, items = acc ++ new ∧
         scored_in_order cats req (region_kept req sample) new.
Proof.
  revert acc. induction sample as [|opp rest IH]; intros acc; cbn [match_loop].
  - intros [= <-]. exists []. split; [by rewrite app_nil_r | constructor].
  - rewrite region_kept_cons. destruct (region_skip req opp); [apply IH|].
    destruct (score_opportunity cats req opp) as [item|e] eqn:Hitem;
      cbn [mbind result_bind]; [|done].
    intros (new & -> & Hnew)%IH. exists (item :: new). split.
    + by rewrite <- app_assoc.
    + by constructor.
Qed.

Lemma match_loop_complete cats req sample acc new :
  scored_in_order cats req (region_kept req sample) new →
  match_loop cats req sample acc = Ok (acc ++ new).
Proof.
  revert acc new. induction sample as [|opp rest IH]; intros acc new;
    cbn [match_loop]; rewrite ?region_kept_cons.
  - intros ->%Forall2_nil_inv_l. by rewrite app_nil_r.
  - destruct (region_skip req opp); [apply IH|].
    intros (item & new' & Hitem & Hnew & ->)%Forall2_cons_inv_l.
    rewrite Hitem. cbn [mbind result_bind].
    rewrite (IH _ _ Hnew). by rewrite <- app_assoc.
Qed.

(** ** Sorting *)

Lemma insert_desc_perm x l : insert_desc x l ≡ₚ x :: l.
Proof.
  induction l as [|y l IH]; cbn [insert_desc]; [done|].
  destruct (Qlt_le_dec (sort_key x) (sort_key y)); [|done].
  rewrite IH. apply Permutation_swap.
Qed.

Lemma sort_desc_perm l : sort_desc l ≡ₚ l.
Proof.
  induction l as [|x l IH]; cbn; [done|].
  fold (sort_desc l). by rewrite insert_desc_perm, IH.
Qed.

Lemma insert_desc_descending x l :
  descending l → descending (insert_desc x l).
Proof.
  unfold descending. induction 1 as [|y l Hl IH Hy]; cbn [insert_desc].
  - repeat constructor.
  - destruct (Qlt_le_dec (sort_key x) (sort_key y)) as [Hlt|Hle].
    + constructor; [done|]. rewrite insert_desc_perm.
      constructor; [by apply Qlt_le_weak | done].
    + constructor; [by constructor|]. constructor; [done|].
      eapply Forall_impl; [exact Hy|]. intros z Hz. cbn beta in *.
      exact (Qle_trans _ _ _ Hz Hle).
Qed.

Lemma sort_desc_descending l : descending (sort_desc l).
Proof.
  induction l as [|x l IH]; cbn; [constructor|].
  by apply insert_desc_descending.
Qed.

Lemma with_score_cons s x l :
  with_score s (x :: l) =
  if decide (sort_key x == s)%Q then x :: with_score s l else with_score s l.
Proof. reflexivity. Qed.

Lemma with_score_insert s x l :
  with_score s (insert_desc x l) = with_score s (x :: l).
Proof.
  induction l as [|y l IH]; cbn [insert_desc]; [done|].
  destruct (Qlt_le_dec (sort_key x) (sort_key y)) as [Hlt|Hle]; [|done].
  rewrite (with_score_cons s y), IH, !with_score_cons.
  destruct (decide (sort_key x == s)%Q) as [Hx|Hx],
           (decide (sort_key y == s)%Q) as [Hy|Hy]; try done.
  rewrite Hx, Hy in Hlt. by apply Qlt_irrefl in Hlt.
Qed.

Lemma sort_desc_stable s l : with_score s (sort_desc l) = with_score s l.
Proof.
  induction l as [|x l IH]; cbn [sort_desc foldr]; [done|].
  fold (sort_desc l). rewrite with_score_insert, !with_score_cons, IH. done.
Qed.

Lemma with_score_take s n l :
  with_score s (take n l) `prefix_of` with_score s l.
Proof.
  rewrite <- (take_drop n l) at 2. unfold with_score.
  rewrite filter_app. by apply prefix_app_r.
Qed.

(** ** The handler *)

Lemma match_opportunities_inv db utcnow req resp :
  match_opportunities db utcnow req = Ok resp →
  ∃ items,
    match_loop (extract_categories (extractor_input req)) req (fetched db) []
      = Ok items ∧
    results resp = take 10 (sort_desc items) ∧
    highlights (report resp) = map summary_line (take 3 (sort_desc items)) ∧
    detected_categories (report resp) = extract_categories (extractor_input req).
Proof.
  unfold match_opportunities. fold (fetched db).
  destruct (match_loop _ req (fetched db) []) as [items|e]; cbn; [|done].
  intros [= <-]. by exists items.
Qed.

Lemma results_scored db utcnow req resp item :
  match_opportunities db utcnow req = Ok resp →
  item ∈ results resp →
  ∃ opp, opp ∈ fetched db ∧ region_skip req opp = false ∧
         score_opportunity (extract_categories (extractor_input req)) req opp
           = Ok item.
Proof.
  intros (items & (new & -> & Hnew)%match_loop_inv & Hres & _)%match_opportunities_inv.
  rewrite Hres. intros Hin%(subseteq_take 10). rewrite sort_desc_perm in Hin.
  cbn in Hin. unfold scored_in_order in Hnew.
  apply list_elem_of_lookup in Hin as [i Hi].
  destruct (Forall2_lookup_r _ _ _ _ _ Hnew Hi) as (opp & Hopp & Hscore).
  exists opp. apply list_elem_of_lookup_2 in Hopp.
  unfold region_kept in Hopp. apply list_elem_of_filter in Hopp as [Hkeep Hopp].
  done.
Qed.

Lemma match_loop_total cats req sample acc :
  Forall (λ opp, categories opp ≠ Null ∧ description opp ≠ Null) sample →
  ∃ items, match_loop cats req sample acc = Ok items.
Proof.
  intros Hall. revert acc.
  induction Hall as [|opp rest [Hc Hd] _ IH]; intros acc; cbn [match_loop].
  - by eexists.
  - destruct (region_skip req opp); [apply IH|].
    destruct (score_opportunity_total cats req opp Hc Hd) as [item ->].
    apply IH.
Qed.

(** The handler answers on every store whose documents have no null
    description or categories, and always on the sample data. *)
Lemma match_opportunities_total db utcnow req :
  Forall (λ opp, categories opp ≠ Null ∧ description opp ≠ Null) (fetched db) →
  ∃ resp, match_opportunities db utcnow req = Ok resp.
Proof.
  intros Hall. unfold match_opportunities. fold (fetched db).
  destruct (match_loop_total (extract_categories (extractor_input req)) req
              (fetched db) [] Hall) as [items ->].
  by eexists.
Qed.

Lemma sample_opportunities_well_formed :
  Forall (λ opp, categories opp ≠ Null ∧ description opp ≠ Null)
         sample_opportunities.
Proof. repeat constructor; done. Qed.

Lemma region_skip_spec req opp :
  region_skip req opp = true ↔ region_excluded req opp.
Proof.
  unfold region_skip, region_excluded.
  destruct (req_region req) as [hint|].
  2: { split; [done | by intros (? & ? & [=] & _)]. }
  destruct (dict_get (region opp)) as [r|].
  2: { rewrite andb_false_r. split; [done | by intros (? & ? & _ & [=] & _)]. }
  destruct (decide (r = "")) as [->|Hr].
  { rewrite andb_false_r. split; [done | by intros (? & ? & _ & [= <-] & ? & _)]. }
  assert (Py.truthy (Some r) = true) as -> by (by destruct r).
  destruct (decide (hint = "")) as [->|Hh].
  { split; [done|]. intros (? & ? & [= <-] & _ & _ & Hno).
    destruct Hno. apply occurs_empty. }
  assert (Py.truthy (Some hint) = true) as -> by (by destruct hint).
  change (default "" (Some hint)) with hint.
  change (default "" (Some r)) with r.
  rewrite !andb_true_l, negb_true_iff, <- not_true_iff_false, str_in_spec.
  split.
  - intros Hno. by exists hint, r.
  - by intros (? & ? & [= <-] & [= <-] & _ & Hno).
Qed.

Lemma elem_of_region_kept req sample opp :
  opp ∈ region_kept req sample ↔ opp ∈ sample ∧ ¬ region_excluded req opp.
Proof.
  unfold region_kept. rewrite list_elem_of_filter, <- region_skip_spec.
  rewrite not_true_iff_false. tauto.
Qed.

Lemma descending_take n l : descending l → descending (take n l).
Proof.
  unfold descending. rewrite <- (take_drop n l) at 1.
  apply StronglySorted_app_1_l.
Qed.

(** ** The claims about bonuses and the final score *)

(** C2, as amended. For every opportunity the handler scores, the bonus
    added to the base score is 15 if some extracted category tag is in
    the opportunity's categories list, plus 10 if the request carries a
    non-empty sector hint which, lower-cased, occurs in the lower-cased
    text made of the space-joined categories, a space and the
    description; each part is 0 otherwise. *)
Theorem bonus_rule (cats : list string) (req : MatchRequest)
    (opp : Fundingopportunity) (item : MatchResult) :
  score_opportunity cats req opp = Ok item →
  ∃ category_bonus sector_bonus : Z,
    why_bonus (why item) = category_bonus + sector_bonus ∧
    match_score item =
      final_score (why_base (why item)) (category_bonus + sector_bonus) ∧
    (category_bonus = 15 ∧ (∃ c, c ∈ cats ∧ c ∈ category_list opp) ∨
     category_bonus = 0 ∧ ¬ (∃ c, c ∈ cats ∧ c ∈ category_list opp)) ∧
    (sector_bonus = 10 ∧ sector_matches req opp ∨
     sector_bonus = 0 ∧ ¬ sector_matches req opp).
Proof.
  intros (base & bonus & _ & Hbonus & Hfinal & Hwhy & _)%score_opportunity_inv.
  apply bonus_of_inv in Hbonus as (hit & Hhit & ->).
  exists (if category_hit cats opp then 15 else 0), (if hit then 10 else 0).
  rewrite Hwhy, Hfinal. cbn [why_bonus why_base]. split_and!; [done | done | |].
  - pose proof (category_hit_spec cats opp) as Hspec.
    destruct (category_hit cats opp).
    + left. split; [done | by apply Hspec].
    + right. split; [done|]. intros Hc. by apply Hspec in Hc.
  - pose proof (sector_hit_spec req opp hit Hhit) as Hspec.
    destruct hit.
    + left. split; [done | by apply Hspec].
    + right. split; [done|]. intros Hs. by apply Hspec in Hs.
Qed.

Lemma bonus_rule_witness :
  ∃ item, score_opportunity ["climate"] climate_req climate_innovation = Ok item ∧
  ∃ category_bonus sector_bonus : Z,
    why_bonus (why item) = category_bonus + sector_bonus ∧
    match_score item =
      final_score (why_base (why item)) (category_bonus + sector_bonus) ∧
    (category_bonus = 15 ∧
       (∃ c, c ∈ ["climate"] ∧ c ∈ category_list climate_innovation) ∨
     category_bonus = 0 ∧
       ¬ (∃ c, c ∈ ["climate"] ∧ c ∈ category_list climate_innovation)) ∧
    (sector_bonus = 10 ∧ sector_matches climate_req climate_innovation ∨
     sector_bonus = 0 ∧ ¬ sector_matches climate_req climate_innovation).
Proof.
  eexists. split; [vm_compute; reflexivity|].
  apply (bonus_rule ["climate"] climate_req climate_innovation).
  vm_compute; reflexivity.
Defined.

(** C2, as the specification states it, fails for an empty sector hint:
    the hint is supplied and occurs in every text, so the stated bonus
    for the climate sample is 15 + 10, and the handler adds 15. *)
Lemma empty_sector_hint_no_bonus :
  ∃ resp item,
    match_opportunities None "" blank_sector_req = Ok resp ∧
    item ∈ results resp ∧
    item_title item = Some "Climate Innovation Fund" ∧
    why_bonus (why item) = 15 ∧
    claimed_bonus (detected_categories (report resp)) blank_sector_req
      climate_innovation = 25 ∧
    why_bonus (why item) ≠
      claimed_bonus (detected_categories (report resp)) blank_sector_req
        climate_innovation.
Proof.
  eexists. eexists. split; [vm_compute; reflexivity|].
  split; [left|]. by vm_compute.
Qed.



Example final_score_95_both_bonuses :
  final_score 95 (15 + 10) = PyInt 100 ∧
  (95 + inject_Z (15 + 10) == 120)%Q.
Proof. split; reflexivity. Qed.

Example final_score_not_rounded_again :
  final_score (3333 # 100) 15 = PyFloat ((3333 # 100) + inject_Z 15) ∧
  ((3333 # 100) + inject_Z 15 == 4833 # 100)%Q.
Proof. split; reflexivity. Qed.

(** ** The claims about filtering and ranking *)

(** C4, as amended. For every request and every opportunity, the
    opportunity is left out of scoring, and so out of the results,
    exactly when the request carries a region hint, the opportunity has
    a non-empty region value, and the lower-cased hint does not occur
    in the lower-cased region; the scored items are those of the
    remaining documents, one each and in their order, and the results
    are taken from them. In particular an opportunity without a region
    value is never left out, and without a hint none is. *)
Theorem region_filter_rule (db : option (list Fundingopportunity))
    (utcnow : string) (req : MatchRequest) (resp : Response) :
  match_opportunities db utcnow req = Ok resp →
  (∀ opp, region_skip req opp = true ↔ region_excluded req opp) ∧
  (∀ opp, opp ∈ region_kept req (fetched db) ↔
          opp ∈ fetched db ∧ ¬ region_excluded req opp) ∧
  (∀ opp, dict_get (region opp) = None → ¬ region_excluded req opp) ∧
  (req_region req = None → ∀ opp, ¬ region_excluded req opp) ∧
  ∃ items,
    scored_in_order (extract_categories (extractor_input req)) req
      (region_kept req (fetched db)) items ∧
    results resp = take 10 (sort_desc items).
Proof.
  intros (items & (new & Heq & Hnew)%match_loop_inv & Hres & _)%match_opportunities_inv.
  split_and!.
  - intros opp. apply region_skip_spec.
  - intros opp. apply elem_of_region_kept.
  - intros opp Hnone (? & ? & _ & Hsome & _). congruence.
  - intros Hnone opp (? & ? & Hsome & _). congruence.
  - exists new. split; [done|]. by rewrite Hres, Heq.
Qed.

Lemma region_filter_rule_witness :
  ∃ resp,
    match_opportunities None "" climate_req = Ok resp ∧
    (∀ opp, region_skip climate_req opp = true ↔ region_excluded climate_req opp) ∧
    (∀ opp, opp ∈ region_kept climate_req (fetched None) ↔
            opp ∈ fetched None ∧ ¬ region_excluded climate_req opp) ∧
    (∀ opp, dict_get (region opp) = None → ¬ region_excluded climate_req opp) ∧
    (req_region climate_req = None → ∀ opp, ¬ region_excluded climate_req opp) ∧
    ∃ items,
      scored_in_order (extract_categories (extractor_input climate_req)) climate_req
        (region_kept climate_req (fetched None)) items ∧
      results resp = take 10 (sort_desc items).
Proof.
  eexists. split; [vm_compute; reflexivity|].
  apply (region_filter_rule None "" climate_req).
  vm_compute; reflexivity.
Defined.

(** C4, as the specification states it, fails for a document whose
    region is the empty string: it has a region value in which "eu"
    does not occur, and the handler scores and returns it. *)
Lemma blank_region_not_excluded :
  claimed_region_excluded eu_req blank_region_doc ∧
  region_skip eu_req blank_region_doc = false ∧
  ∃ resp item,
    match_opportunities (Some [blank_region_doc]) "" eu_req = Ok resp ∧
    results resp = [item] ∧
    item_title item = Some "Open Call" ∧
    item_region item = Some "".
Proof.
  split_and!.
  - exists "EU", "". split_and!; [done | done |].
    rewrite <- str_in_spec. by vm_compute.
  - reflexivity.
  - eexists. eexists. split; [vm_compute; reflexivity|]. done.
Qed.

Example region_filter_examples :
  region_skip eu_req climate_innovation = true ∧
  region_skip us_lower_req climate_innovation = false ∧
  region_skip no_region_req climate_innovation = false.
Proof. by vm_compute. Qed.

(** C5. The results of the handler are the first ten, at most, of the
    scored items put in descending order of final match score by a
    stable sort: the ranking is a permutation of the scored items, is
    descending, and keeps the items of any one score in the order in
    which they were scored, which is the order of the fetched (or
    sample) documents. *)
Theorem results_ranked (db : option (list Fundingopportunity))
    (utcnow : string) (req : MatchRequest) (resp : Response) :
  match_opportunities db utcnow req = Ok resp →
  ∃ items ranked,
    scored_in_order (extract_categories (extractor_input req)) req
      (region_kept req (fetched db)) items ∧
    ranked ≡ₚ items ∧
    descending ranked ∧
    (∀ s, with_score s ranked = with_score s items) ∧
    results resp = take 10 ranked ∧
    (length (results resp) ≤ 10)%nat ∧
    descending (results resp) ∧
    (∀ s, with_score s (results resp) `prefix_of` with_score s items).
Proof.
  intros (items & (new & Heq & Hnew)%match_loop_inv & Hres & _)%match_opportunities_inv.
  cbn in Heq. subst items.
  exists new, (sort_desc new). rewrite Hres. split_and!.
  - done.
  - apply sort_desc_perm.
  - apply sort_desc_descending.
  - intros s. apply sort_desc_stable.
  - done.
  - rewrite length_take. lia.
  - apply descending_take, sort_desc_descending.
  - intros s. rewrite <- (sort_desc_stable s new). apply with_score_take.
Qed.

Lemma results_ranked_witness :
  ∃ resp,
    match_opportunities None "" health_ai_req = Ok resp ∧
    ∃ items ranked,
      scored_in_order (extract_categories (extractor_input health_ai_req))
        health_ai_req (region_kept health_ai_req (fetched None)) items ∧
      ranked ≡ₚ items ∧
      descending ranked ∧
      (∀ s, with_score s ranked = with_score s items) ∧
      results resp = take 10 ranked ∧
      (length (results resp) ≤ 10)%nat ∧
      descending (results resp) ∧
      (∀ s, with_score s (results resp) `prefix_of` with_score s items).
Proof.
  eexists. split; [vm_compute; reflexivity|].
  apply (results_ranked None "" health_ai_req).
  vm_compute; reflexivity.
Defined.

(** ** The claims about the report *)

Lemma summary_line_starts_with_one x :
  String.prefix "1) " (summary_line x) = true.
Proof. apply prefix_spec. eexists. unfold summary_line. reflexivity. Qed.

Lemma highlights_shape db utcnow req resp :
  match_opportunities db utcnow req = Ok resp →
  highlights (report resp) = map summary_line (take 3 (results resp)) ∧
  (length (highlights (report resp)) ≤ 3)%nat ∧
  Forall (λ line, String.prefix "1) " line = true) (highlights (report resp)).
Proof.
  intros (items & _ & Hres & Hhl & _)%match_opportunities_inv.
  rewrite Hhl, Hres, take_take. change (3 `min` 10)%nat with 3%nat.
  split_and!; [done | rewrite length_map, length_take; lia |].
  apply Forall_forall. intros line (x & -> & _)%list_elem_of_fmap.
  apply summary_line_starts_with_one.
Qed.

(** C7. The highlights are at most three lines, one per top-ranked
    result, with the result's title, agency and final score; the number
    in front should be the result's position, and the handler writes
    "1)" on every line: for the request "digital health and artificial
    intelligence" on the sample data, the second and third lines read
    "1) ..." where "2) ..." and "3) ..." are specified. *)
Theorem highlights_numbered_one_on_every_line :
  ∃ resp,
    match_opportunities None "" health_ai_req = Ok resp ∧
    map item_title (results resp) =
      [Some "AI for Social Good Grants"; Some "Digital Health Seed Grants";
       Some "Climate Innovation Fund"] ∧
    highlights (report resp) =
      ["1) AI for Social Good Grants — Open Philanthropy (Score 95.0)";
       "1) Digital Health Seed Grants — HealthTech Council (Score 75.0)";
       "1) Climate Innovation Fund — Green Future Foundation (Score 20.0)"].
Proof. eexists. split; [vm_compute; reflexivity|]. split; reflexivity. Qed.

(** C8, as amended. The detected category tags, reported as
    [detected_categories] and used for the category bonus of every
    result, are those the extractor finds in the description followed by
    a space and the sector hint (nothing when there is no hint); so two
    requests with the same description and the same sector hint have the
    same detected categories. *)
Theorem detected_categories_source (db : option (list Fundingopportunity))
    (utcnow : string) (req : MatchRequest) (resp : Response) :
  match_opportunities db utcnow req = Ok resp →
  detected_categories (report resp) =
    extract_categories (req_description req +:+ " " +:+ default "" (req_sector req)) ∧
  Forall (λ item, why_keywords (why item) = detected_categories (report resp))
         (results resp) ∧
  ∀ db' utcnow' req' resp',
    match_opportunities db' utcnow' req' = Ok resp' →
    req_description req' = req_description req →
    req_sector req' = req_sector req →
    detected_categories (report resp') = detected_categories (report resp).
Proof.
  intros Hresp.
  pose proof Hresp as (items & _ & _ & _ & Hcats)%match_opportunities_inv.
  unfold extractor_input in Hcats. rewrite str_or_default in Hcats.
  split_and!; [done | |].
  - apply Forall_forall. intros item Hitem.
    destruct (results_scored _ _ _ _ _ Hresp Hitem) as (opp & _ & _ & Hscore).
    apply score_opportunity_inv in Hscore as (? & ? & _ & _ & _ & -> & _).
    cbn [why_keywords]. unfold extractor_input. by rewrite str_or_default, Hcats.
  - intros db' utcnow' req' resp' (? & _ & _ & _ & Hcats')%match_opportunities_inv
      Hdesc Hsector.
    unfold extractor_input in Hcats'. rewrite str_or_default in Hcats'.
    by rewrite Hcats, Hcats', Hdesc, Hsector.
Qed.

Lemma detected_categories_source_witness :
  ∃ resp,
    match_opportunities None "" garden_health_req = Ok resp ∧
    detected_categories (report resp) =
      extract_categories (req_description garden_health_req +:+ " " +:+
                          default "" (req_sector garden_health_req)) ∧
    Forall (λ item, why_keywords (why item) = detected_categories (report resp))
           (results resp) ∧
    ∀ db' utcnow' req' resp',
      match_opportunities db' utcnow' req' = Ok resp' →
      req_description req' = req_description garden_health_req →
      req_sector req' = req_sector garden_health_req →
      detected_categories (report resp') = detected_categories (report resp).
Proof.
  eexists. split; [vm_compute; reflexivity|].
  apply (detected_categories_source None "" garden_health_req).
  vm_compute; reflexivity.
Defined.

(** C8, as the specification states it, fails: two requests with the
    description "community garden", one without a sector hint and one
    with the hint "health", have different detected categories, and the
    second differs from what the extractor finds in the description
    alone. *)
Lemma detected_categories_depend_on_sector :
  req_description garden_req = req_description garden_health_req ∧
  ∃ resp resp',
    match_opportunities None "" garden_req = Ok resp ∧
    match_opportunities None "" garden_health_req = Ok resp' ∧
    detected_categories (report resp) = ["general"] ∧
    detected_categories (report resp') = ["health"] ∧
    detected_categories (report resp) ≠ detected_categories (report resp') ∧
    detected_categories (report resp') ≠
      extract_categories (req_description garden_health_req).
Proof.
  split; [reflexivity|]. eexists. eexists.
  split; [vm_compute; reflexivity|]. split; [vm_compute; reflexivity|].
  by vm_compute.
Qed.

(** ** Null fields *)

(** C9. Scoring should complete on documents with missing or null
    fields. A null description is read as empty by the scorer and null
    categories as empty by the category bonus, but the scorer joins
    null categories and the sector bonus appends a null description:
    the handler raises TypeError on a document with null categories, and
    on one with a null description when the request has a sector hint. *)
Theorem null_fields_raise :
  match_opportunities (Some [null_categories_doc]) "" garden_req
    = Raise TypeError ∧
  simple_score (req_description garden_req) null_categories_doc
    = Raise TypeError ∧
  match_opportunities (Some [null_description_doc]) "" garden_health_req
    = Raise TypeError ∧
  (∃ s, simple_score (req_description garden_health_req) null_description_doc
          = Ok s ∧ (s == 0)%Q) ∧
  sector_hit garden_health_req null_description_doc = Raise TypeError ∧
  category_hit ["health"] null_categories_doc = false.
Proof.
  split_and!; try by vm_compute.
  eexists. split; [vm_compute; reflexivity | reflexivity].
Qed.

(** ** End to end *)

(** C10. With no database and the request
    {description: "climate energy carbon reduction", sector: null,
    region: "US"}, the handler works on the three sample records; its
    results contain the "Climate Innovation Fund" record, of region
    "US", with a match score above 0, and no "Digital Health Seed
    Grants" record, which the region filter skips. *)
Theorem climate_request_end_to_end (utcnow : string) :
  fetched None = [ai_social_good; climate_innovation; digital_health] ∧
  region_skip climate_req digital_health = true ∧
  ∃ resp,
    match_opportunities None utcnow climate_req = Ok resp ∧
    (∃ item, item ∈ results resp ∧
             item_title item = Some "Climate Innovation Fund" ∧
             item_region item = Some "US" ∧
             (0 < num_val (match_score item))%Q) ∧
    (∀ item, item ∈ results resp →
             item_title item ≠ Some "Digital Health Seed Grants").
Proof.
  split; [reflexivity|]. split; [reflexivity|].
  eexists. split; [vm_compute; reflexivity|]. split.
  - eexists. split; [left|]. by vm_compute.
  - intros item ->%list_elem_of_singleton. by vm_compute.
Qed.

(** * Further properties *)

(** ** Rounding *)

Lemma round_half_even_bounds (a b : Z) (x : Q) :
  (inject_Z a <= x)%Q → (x <= inject_Z b)%Q →
  a ≤ round_half_even x ∧ round_half_even x ≤ b.
Proof.
  intros Ha Hb. unfold round_half_even.
  pose proof (Qfloor_resp_le _ _ Ha) as Hfa. rewrite Qfloor_Z in Hfa.
  pose proof (Qfloor_resp_le _ _ Hb) as Hfb. rewrite Qfloor_Z in Hfb.
  assert ((0 < x - inject_Z (Qfloor x))%Q → Qfloor x + 1 ≤ b) as Hup.
  { intros Hpos. destruct (decide (Qfloor x = b)) as [Heq|Hne]; [|lia].
    exfalso. rewrite Heq in Hpos. apply (Qlt_irrefl x).
    eapply Qle_lt_trans; [exact Hb|].
    apply (Qplus_lt_l _ _ (- inject_Z b)). by rewrite Qplus_opp_r. }
  destruct (Qcompare_spec (x - inject_Z (Qfloor x)) (1 # 2)) as [Heq|Hlt|Hgt].
  - destruct (Z.even (Qfloor x)); [lia|].
    split; [lia|]. apply Hup. by rewrite Heq.
  - lia.
  - split; [lia|]. apply Hup. eapply Qlt_trans; [|exact Hgt]. done.
Qed.

#[global] Instance round_half_even_proper : Proper (Qeq ==> eq) round_half_even.
Proof.
  intros x y Hxy. unfold round_half_even.
  by rewrite (Qfloor_comp _ _ Hxy), Hxy.
Qed.

Lemma round_half_even_Z (n : Z) : round_half_even (inject_Z n) = n.
Proof.
  unfold round_half_even. rewrite Qfloor_Z.
  assert (inject_Z n - inject_Z n == 0)%Q as -> by apply Qplus_opp_r.
  reflexivity.
Qed.

#[global] Instance py_round_proper : Proper (Qeq ==> eq ==> Qeq) py_round.
Proof.
  intros x y Hxy n ? <-. unfold py_round. by rewrite Hxy.
Qed.

Lemma py_round_2_Z (n : Z) : (py_round (inject_Z n) 2 == inject_Z n)%Q.
Proof.
  unfold py_round. change (inject_Z (10 ^ Z.of_nat 2)) with (inject_Z 100).
  rewrite <- inject_Z_mult, round_half_even_Z, inject_Z_mult.
  by apply Qdiv_mult_l.
Qed.

Lemma py_round_2_bounds (a b : Z) (x : Q) :
  (inject_Z a <= x)%Q → (x <= inject_Z b)%Q →
  (inject_Z a <= py_round x 2 <= inject_Z b)%Q.
Proof.
  intros Ha Hb. unfold py_round.
  change (inject_Z (10 ^ Z.of_nat 2)) with (inject_Z 100).
  destruct (round_half_even_bounds (a * 100) (b * 100) (x * inject_Z 100))
    as [Hlo Hhi].
  - rewrite inject_Z_mult. by apply Qmult_le_compat_r.
  - rewrite inject_Z_mult. by apply Qmult_le_compat_r.
  - split.
    + apply Qle_shift_div_l; [done|]. rewrite <- inject_Z_mult.
      by rewrite <- Zle_Qle.
    + apply Qle_shift_div_r; [done|]. rewrite <- inject_Z_mult.
      by rewrite <- Zle_Qle.
Qed.

(** ** The base score *)

Lemma simple_score_inv query opp s :
  simple_score query opp = Ok s →
  categories opp ≠ Null ∧
  (s == base_score_formula query (comparison_text opp))%Q.
Proof.
  intros Hs. assert (categories opp ≠ Null) as Hc.
  { intros Hnull. unfold simple_score in Hs. by rewrite Hnull in Hs. }
  split; [done|]. revert Hs.
  rewrite (simple_score_unfold _ _ _ (categories_not_null _ Hc)). cbv zeta.
  fold (comparison_text opp).
  destruct (decide (word_set query = ∅)) as [Hq|Hq]; intros [= <-].
  - symmetry. by apply base_score_formula_empty.
  - reflexivity.
Qed.

Lemma base_score_formula_overlap query opp :
  base_score_formula query (comparison_text opp) =
  py_round
    (Qmin 100 (inject_Z (Z.of_nat (overlap_count query opp))
               / inject_Z (Z.max 5 (Z.of_nat (size (word_set query)))) * 100)) 2.
Proof. reflexivity. Qed.

Lemma overlap_count_le query opp :
  (overlap_count query opp ≤ size (word_set query))%nat.
Proof. apply subseteq_size, intersection_subseteq_l. Qed.

Lemma ratio_nonneg (ov d : Z) :
  0 ≤ ov → 0 < d → (0 <= inject_Z ov / inject_Z d * 100)%Q.
Proof.
  intros Hov Hd. apply Qmult_le_0_compat; [|done].
  apply Qle_shift_div_l.
  - change 0%Q with (inject_Z 0). by rewrite <- Zlt_Qlt.
  - rewrite Qmult_0_l. change 0%Q with (inject_Z 0). by rewrite <- Zle_Qle.
Qed.

Lemma base_score_formula_range query text :
  (0 <= base_score_formula query text <= 100)%Q.
Proof.
  unfold base_score_formula. cbv zeta. apply (py_round_2_bounds 0 100).
  - apply Q.min_glb; [done|]. apply ratio_nonneg; lia.
  - apply Q.le_min_l.
Qed.

(** X1. Whatever the query and the document, a base score that
    [simple_score] returns lies between 0 and 100. *)
Theorem simple_score_range (query : string) (opp : Fundingopportunity) (s : Q) :
  simple_score query opp = Ok s → (0 <= s <= 100)%Q.
Proof.
  intros [_ Hs]%simple_score_inv. rewrite Hs.
  apply base_score_formula_range.
Qed.

Lemma simple_score_range_witness :
  ∃ s, simple_score "climate energy carbon reduction" climate_innovation = Ok s ∧
       (0 <= s <= 100)%Q.
Proof.
  eexists. split; [vm_compute; reflexivity|].
  apply (simple_score_range "climate energy carbon reduction" climate_innovation).
  vm_compute; reflexivity.
Defined.

Lemma base_score_formula_short query opp :
  (size (word_set query) ≤ 5)%nat →
  (base_score_formula query (comparison_text opp)
   == inject_Z (20 * Z.of_nat (overlap_count query opp)))%Q.
Proof.
  intros Hshort. rewrite base_score_formula_overlap.
  pose proof (overlap_count_le query opp) as Hle.
  rewrite Z.max_l by lia.
  assert (inject_Z (Z.of_nat (overlap_count query opp)) / inject_Z 5 * 100
          == inject_Z (20 * Z.of_nat (overlap_count query opp)))%Q as ->.
  { rewrite inject_Z_mult. change (inject_Z 5) with 5%Q.
    change (inject_Z 20) with 20%Q. field. }
  rewrite Q.min_r; [apply py_round_2_Z|].
  change 100%Q with (inject_Z 100). rewrite <- Zle_Qle. lia.
Qed.

(** X2. For a query of at most five distinct words the base score is
    exactly 20 points for each query word found in the document: the
    divisor never drops below 5, so such a query reaches 100 only when
    it has five words and all of them are found. *)
Theorem simple_score_short_query (query : string) (opp : Fundingopportunity)
    (s : Q) :
  simple_score query opp = Ok s →
  (size (word_set query) ≤ 5)%nat →
  (s == inject_Z (20 * Z.of_nat (overlap_count query opp)))%Q.
Proof.
  intros [_ Hs]%simple_score_inv Hshort. rewrite Hs.
  by apply base_score_formula_short.
Qed.

Lemma simple_score_short_query_witness :
  ∃ s, simple_score "climate energy carbon reduction" climate_innovation = Ok s ∧
       (size (word_set "climate energy carbon reduction") ≤ 5)%nat ∧
       (s == inject_Z (20 * Z.of_nat
               (overlap_count "climate energy carbon reduction"
                  climate_innovation)))%Q.
Proof.
  eexists. split; [vm_compute; reflexivity|].
  split; [vm_compute; lia|].
  apply (simple_score_short_query "climate energy carbon reduction"
           climate_innovation).
  - vm_compute; reflexivity.
  - vm_compute; lia.
Defined.

(** X3. When every word of a query of five or more distinct words
    occurs among the document's words, the base score is 100. *)
Theorem simple_score_full_overlap (query : string) (opp : Fundingopportunity)
    (s : Q) :
  simple_score query opp = Ok s →
  (5 ≤ size (word_set query))%nat →
  word_set query ⊆ opportunity_words opp →
  (s == 100)%Q.
Proof.
  intros [_ ->]%simple_score_inv Hlong Hsub. rewrite base_score_formula_overlap.
  unfold overlap_count.
  rewrite (subseteq_intersection_1_L _ _ Hsub).
  rewrite Z.max_r by lia.
  assert (inject_Z (Z.of_nat (size (word_set query)))
          / inject_Z (Z.of_nat (size (word_set query))) * 100 == 100)%Q as ->.
  { field. change 0%Q with (inject_Z 0). rewrite inject_Z_injective. lia. }
  rewrite Q.min_l by done. apply (py_round_2_Z 100).
Qed.

(** X4. When no word of the query occurs among the document's words,
    the base score is 0; in particular a document with neither a
    description nor categories scores 0 on every query. *)
Theorem simple_score_no_overlap (query : string) (opp : Fundingopportunity)
    (s : Q) :
  simple_score query opp = Ok s →
  word_set query ∩ opportunity_words opp = ∅ ∨
  (dict_get (description opp) = None ∧ category_list opp = []) →
  (s == 0)%Q.
Proof.
  intros [_ ->]%simple_score_inv Hdisj. rewrite base_score_formula_overlap.
  assert (overlap_count query opp = 0%nat) as ->.
  { unfold overlap_count. destruct Hdisj as [-> | [Hd Hc]]; [apply size_empty|].
    unfold opportunity_words, comparison_text. unfold category_list in Hc.
    rewrite Hd, Hc. change (word_set _ ∩ word_set (default "" None +:+ " " +:+ Py.join " " []))
      with (word_set query ∩ ∅). by rewrite intersection_empty_r_L, size_empty. }
  assert (inject_Z (Z.of_nat 0) / inject_Z (Z.max 5 (Z.of_nat (size (word_set query))))
          * 100 == 0)%Q as -> by reflexivity.
  reflexivity.
Qed.

Lemma simple_score_full_overlap_witness :
  ∃ s, simple_score "Supports climate AND energy innovations" climate_innovation
         = Ok s ∧
       (5 ≤ size (word_set "Supports climate AND energy innovations"))%nat ∧
       word_set "Supports climate AND energy innovations"
         ⊆ opportunity_words climate_innovation ∧
       (s == 100)%Q.
Proof.
  eexists. split; [vm_compute; reflexivity|].
  split; [vm_compute; lia|].
  assert (word_set "Supports climate AND energy innovations"
            ⊆ opportunity_words climate_innovation) as Hsub.
  { apply (bool_decide_unpack _). vm_compute. reflexivity. }
  split; [exact Hsub|].
  apply (simple_score_full_overlap "Supports climate AND energy innovations"
           climate_innovation).
  - vm_compute; reflexivity.
  - vm_compute; lia.
  - exact Hsub.
Defined.

Lemma simple_score_no_overlap_witness :
  ∃ s, simple_score "quantum widgets" climate_innovation = Ok s ∧
       (word_set "quantum widgets" ∩ opportunity_words climate_innovation = ∅ ∨
        (dict_get (description climate_innovation) = None ∧
         category_list climate_innovation = [])) ∧
       (s == 0)%Q.
Proof.
  eexists. split; [vm_compute; reflexivity|].
  assert (word_set "quantum widgets" ∩ opportunity_words climate_innovation = ∅)
    as Hdisj by (vm_compute; reflexivity).
  split; [by left|].
  apply (simple_score_no_overlap "quantum widgets" climate_innovation).
  - vm_compute; reflexivity.
  - by left.
Defined.

(** ** When the handler answers *)

Lemma simple_score_ok_iff query opp :
  (∃ s, simple_score query opp = Ok s) ↔ categories opp ≠ Null.
Proof.
  split; [by intros [s [? _]%simple_score_inv] | apply simple_score_total].
Qed.

Lemma simple_score_raises query opp e :
  simple_score query opp = Raise e → e = TypeError.
Proof.
  unfold simple_score. destruct (categories opp); cbn; [|congruence|];
    by destruct (decide _).
Qed.

Lemma sector_hit_cases req opp :
  (∃ hit, sector_hit req opp = Ok hit) ∧
    (Py.truthy (req_sector req) = false ∨
     categories opp ≠ Null ∧ description opp ≠ Null) ∨
  sector_hit req opp = Raise TypeError ∧
    Py.truthy (req_sector req) = true ∧
    (categories opp = Null ∨ description opp = Null).
Proof.
  unfold sector_hit. destruct (Py.truthy (req_sector req)).
  - destruct (categories opp), (description opp); cbn;
      first [ left; split; [by eexists | by right]
            | right; split_and!; [done | done | by (left + right)] ].
  - left. split; [by eexists | by left].
Qed.

Lemma score_opportunity_cases cats req opp :
  (∃ item, score_opportunity cats req opp = Ok item) ∧ scorable req opp ∨
  score_opportunity cats req opp = Raise TypeError ∧ ¬ scorable req opp.
Proof.
  unfold score_opportunity, bonus_of, scorable.
  destruct (simple_score (req_description req) opp) as [s|e] eqn:Hs.
  - assert (categories opp ≠ Null) as Hc
      by (apply (simple_score_ok_iff (req_description req)); by exists s).
    destruct (sector_hit_cases req opp)
      as [[[hit ->] Hok] | (-> & Htruthy & Hnull)]; cbn.
    + left. split; [by eexists|]. split; [done|].
      intros Hd. destruct Hok as [?|[_ ?]]; done.
    + right. split; [done|]. intros [_ Hd].
      destruct Hnull as [?|Hnull]; [done|]. rewrite (Hd Hnull) in Htruthy. done.
  - right. rewrite (simple_score_raises _ _ _ Hs). split; [done|].
    intros [Hc _]. apply (simple_score_ok_iff (req_description req)) in Hc as [? Hok].
    congruence.
Qed.

Lemma match_loop_cases cats req sample acc :
  (∃ items, match_loop cats req sample acc = Ok items) ∧
    Forall (scorable req) (region_kept req sample) ∨
  match_loop cats req sample acc = Raise TypeError ∧
    ¬ Forall (scorable req) (region_kept req sample).
Proof.
  revert acc. induction sample as [|opp rest IH]; intros acc; cbn [match_loop].
  - left. split; [by eexists | constructor].
  - rewrite region_kept_cons. destruct (region_skip req opp); [apply IH|].
    destruct (score_opportunity_cases cats req opp)
      as [[[item ->] Hok] | [-> Hbad]]; cbn [mbind result_bind].
    + destruct (IH (acc ++ [item])) as [[Hitems Hall] | [Hraise Hnot]].
      * left. split; [done | by constructor].
      * right. split; [done|]. by intros [_ ?]%Forall_cons.
    + right. split; [done|]. by intros [? _]%Forall_cons.
Qed.

(** X5. The handler answers exactly when every document that passes the
    region filter has categories that are not null and, if the request
    carries a non-empty sector hint, a description that is not null;
    otherwise it raises, and the only exception it raises is TypeError.
    Documents the region filter skips are never inspected. *)
Theorem match_opportunities_answers_iff (db : option (list Fundingopportunity))
    (utcnow : string) (req : MatchRequest) :
  ((∃ resp, match_opportunities db utcnow req = Ok resp) ↔
   Forall (scorable req) (region_kept req (fetched db))) ∧
  (∀ e, match_opportunities db utcnow req = Raise e → e = TypeError).
Proof.
  unfold match_opportunities. fold (fetched db).
  destruct (match_loop_cases (extract_categories (extractor_input req)) req
              (fetched db) []) as [[[items ->] Hall] | [-> Hnot]];
    cbn [mbind result_bind].
  - split; [|done]. split; [done | by eexists].
  - split; [|congruence]. split; [by intros [? ?] | done].
Qed.

(** X6. With no database configured the handler answers every request:
    the sample documents have no null field. *)
Theorem demo_mode_always_answers (utcnow : string) (req : MatchRequest) :
  ∃ resp, match_opportunities None utcnow req = Ok resp.
Proof. apply match_opportunities_total, sample_opportunities_well_formed. Qed.

(** ** Size and order of the answer *)

Lemma match_opportunities_items db utcnow req resp :
  match_opportunities db utcnow req = Ok resp →
  ∃ items,
    scored_in_order (extract_categories (extractor_input req)) req
      (region_kept req (fetched db)) items ∧
    results resp = take 10 (sort_desc items) ∧
    highlights (report resp) = map summary_line (take 3 (sort_desc items)).
Proof.
  intros (items & (new & Heq & Hnew)%match_loop_inv & Hres & Hhl & _)%match_opportunities_inv.
  cbn in Heq. subst items. by exists new.
Qed.

Lemma region_kept_no_hint req sample :
  Py.truthy (req_region req) = false → region_kept req sample = sample.
Proof.
  intros Hnohint. induction sample as [|opp rest IH]; [done|].
  rewrite region_kept_cons, IH. unfold region_skip. by rewrite Hnohint.
Qed.

(** X7. The number of results is the number of documents that pass the
    region filter, capped at 10; without a region hint it is the number
    of fetched documents, capped at 10. *)
Theorem results_count (db : option (list Fundingopportunity))
    (utcnow : string) (req : MatchRequest) (resp : Response) :
  match_opportunities db utcnow req = Ok resp →
  length (results resp) = (10 `min` length (region_kept req (fetched db)))%nat ∧
  (Py.truthy (req_region req) = false →
   length (results resp) = (10 `min` length (fetched db))%nat).
Proof.
  intros (items & Hitems & -> & _)%match_opportunities_items.
  apply Forall2_length in Hitems.
  rewrite length_take, (Permutation_length (sort_desc_perm items)), <- Hitems.
  split; [done|]. intros Hnohint. by rewrite region_kept_no_hint.
Qed.

Lemma results_count_witness :
  ∃ resp,
    match_opportunities None "" climate_req = Ok resp ∧
    length (results resp)
      = (10 `min` length (region_kept climate_req (fetched None)))%nat ∧
    (Py.truthy (req_region climate_req) = false →
     length (results resp) = (10 `min` length (fetched None))%nat).
Proof.
  eexists. split; [vm_compute; reflexivity|].
  apply (results_count None "" climate_req).
  vm_compute; reflexivity.
Defined.

(** X8. Cutting the ranking at ten keeps the best: the results together
    with the items left out are a rearrangement of the scored items, no
    item left out scores more than a result, and the first result
    scores at least as much as every scored item. *)
Theorem results_keep_the_best (db : option (list Fundingopportunity))
    (utcnow : string) (req : MatchRequest) (resp : Response) :
  match_opportunities db utcnow req = Ok resp →
  ∃ items left_out,
    scored_in_order (extract_categories (extractor_input req)) req
      (region_kept req (fetched db)) items ∧
    results resp ++ left_out ≡ₚ items ∧
    (∀ x y, x ∈ results resp → y ∈ left_out → (sort_key y <= sort_key x)%Q) ∧
    (∀ top y, head (results resp) = Some top → y ∈ items →
              (sort_key y <= sort_key top)%Q).
Proof.
  intros (items & Hitems & -> & _)%match_opportunities_items.
  exists items, (drop 10 (sort_desc items)).
  pose proof (sort_desc_descending items) as Hdesc. unfold descending in Hdesc.
  split_and!.
  - done.
  - rewrite take_drop. apply sort_desc_perm.
  - intros x y Hx Hy. rewrite <- (take_drop 10 (sort_desc items)) in Hdesc.
    by apply (StronglySorted_app_1_elem_of _ _ _ _ _ Hdesc).
  - intros top y Htop Hy. rewrite <- (sort_desc_perm items) in Hy.
    destruct (sort_desc items) as [|z ranked]; [done|].
    cbn in Htop. injection Htop as ->.
    apply StronglySorted_cons in Hdesc as [Htail _].
    apply elem_of_cons in Hy as [-> | Hy]; [apply Qle_refl|].
    by apply (proj1 (Forall_forall _ _) Htail).
Qed.

Lemma results_keep_the_best_witness :
  ∃ resp,
    match_opportunities None "" health_ai_req = Ok resp ∧
    ∃ items left_out,
      scored_in_order (extract_categories (extractor_input health_ai_req))
        health_ai_req (region_kept health_ai_req (fetched None)) items ∧
      results resp ++ left_out ≡ₚ items ∧
      (∀ x y, x ∈ results resp → y ∈ left_out → (sort_key y <= sort_key x)%Q) ∧
      (∀ top y, head (results resp) = Some top → y ∈ items →
                (sort_key y <= sort_key top)%Q).
Proof.
  eexists. split; [vm_compute; reflexivity|].
  apply (results_keep_the_best None "" health_ai_req).
  vm_compute; reflexivity.
Defined.

(** X9. The highlights are the summary lines of the first three
    results, in order: there are as many lines as results, capped at
    three. *)
Theorem highlights_of_top_results (db : option (list Fundingopportunity))
    (utcnow : string) (req : MatchRequest) (resp : Response) :
  match_opportunities db utcnow req = Ok resp →
  highlights (report resp) = map summary_line (take 3 (results resp)) ∧
  length (highlights (report resp)) = (3 `min` length (results resp))%nat.
Proof.
  intros (items & _ & -> & ->)%match_opportunities_items.
  rewrite take_take. change (3 `min` 10)%nat with 3%nat.
  split; [done|]. rewrite length_map, !length_take. lia.
Qed.

Lemma highlights_of_top_results_witness :
  ∃ resp,
    match_opportunities None "" health_ai_req = Ok resp ∧
    highlights (report resp) = map summary_line (take 3 (results resp)) ∧
    length (highlights (report resp)) = (3 `min` length (results resp))%nat.
Proof.
  eexists. split; [vm_compute; reflexivity|].
  apply (highlights_of_top_results None "" health_ai_req).
  vm_compute; reflexivity.
Defined.

(** ** Base score, bonus and final score of an item *)







(** ** Letter case *)

Lemma lower_char_idem c : Py.lower_char (Py.lower_char c) = Py.lower_char c.
Proof. by destruct c as [[] [] [] [] [] [] [] []]. Qed.

Lemma lower_idem s : Py.lower (Py.lower s) = Py.lower s.
Proof.
  induction s as [|c s IH]; [done|]. cbn. by rewrite lower_char_idem, IH.
Qed.

Lemma lower_app a b : Py.lower (a +:+ b) = Py.lower a +:+ Py.lower b.
Proof.
  induction a as [|c a IH]; [done|].
  change (Py.lower (String c (a +:+ b))
          = String (Py.lower_char c) (Py.lower a +:+ Py.lower b)).
  cbn. by rewrite IH.
Qed.

Lemma lower_join cs :
  Py.lower (Py.join " " cs) = Py.join " " (Py.lower <$> cs).
Proof.
  induction cs as [|c [|c' cs] IH]; [done..|].
  change (Py.join " " (c :: c' :: cs)) with (c +:+ " " +:+ Py.join " " (c' :: cs)).
  rewrite !lower_app, IH. reflexivity.
Qed.

Lemma lower_truthy s s' :
  Py.lower s = Py.lower s' → Py.truthy (Some s) = Py.truthy (Some s').
Proof. by destruct s, s'. Qed.

Lemma extract_categories_lower text :
  extract_categories text
  = Py.list_or (triggered_tags KEYWORD_MAP (Py.lower text)) ["general"].
Proof. unfold extract_categories. by rewrite extract_loop_tags. Qed.

(** X12. The extractor does not see letter case: two texts with the
    same lower-casing get the same tags, and so a text and its
    lower-casing do. *)
Theorem extract_categories_ignores_case (text text' : string) :
  Py.lower text = Py.lower text' →
  extract_categories text = extract_categories text' ∧
  extract_categories (Py.lower text) = extract_categories text.
Proof.
  intros Heq. rewrite !extract_categories_lower, lower_idem. by rewrite Heq.
Qed.

Lemma extract_categories_ignores_case_witness :
  Py.lower "Machine LEARNING for Schools" = Py.lower "machine learning for schools" ∧
  extract_categories "Machine LEARNING for Schools"
    = extract_categories "machine learning for schools" ∧
  extract_categories (Py.lower "Machine LEARNING for Schools")
    = extract_categories "Machine LEARNING for Schools".
Proof.
  split; [reflexivity|].
  apply (extract_categories_ignores_case "Machine LEARNING for Schools"
           "machine learning for schools").
  reflexivity.
Defined.

Lemma word_set_same_lower s s' :
  Py.lower s = Py.lower s' → word_set s = word_set s'.
Proof. unfold word_set. by intros ->. Qed.

Lemma word_set_lower s : word_set (Py.lower s) = word_set s.
Proof. unfold word_set. by rewrite lower_idem. Qed.

(** X13. The scorer does not see letter case: the base score is the
    same for a query and its lower-casing, and for two documents whose
    descriptions and whose categories differ only in letter case. *)
Theorem simple_score_ignores_case (query : string)
    (opp opp' : Fundingopportunity) (d d' : string) (cs cs' : list string) :
  description opp = Val d → description opp' = Val d' →
  categories opp = Val cs → categories opp' = Val cs' →
  Py.lower d = Py.lower d' →
  Py.lower <$> cs = Py.lower <$> cs' →
  simple_score (Py.lower query) opp = simple_score query opp ∧
  simple_score query opp = simple_score query opp'.
Proof.
  intros Hd Hd' Hc Hc' Hdl Hcl.
  apply (f_equal (Py.join " ")) in Hcl. rewrite <- !lower_join in Hcl.
  assert (dict_get_default (categories opp) [] = Some cs) as Hgc by by rewrite Hc.
  assert (dict_get_default (categories opp') [] = Some cs') as Hgc' by by rewrite Hc'.
  rewrite !(simple_score_unfold _ _ _ Hgc), (simple_score_unfold _ _ _ Hgc').
  rewrite word_set_lower, Hd, Hd'. split; [done|].
  cbn [dict_get default from_option id].
  assert (word_set (d +:+ " " +:+ Py.join " " cs)
          = word_set (d' +:+ " " +:+ Py.join " " cs')) as ->; [|done].
  apply word_set_same_lower. by rewrite !lower_app, Hdl, Hcl.
Qed.

Lemma simple_score_ignores_case_witness :
  description climate_innovation
    = Val "Supports climate and energy innovations reducing carbon emissions." ∧
  description climate_innovation_caps
    = Val "SUPPORTS CLIMATE AND ENERGY INNOVATIONS REDUCING CARBON EMISSIONS." ∧
  categories climate_innovation = Val ["climate"; "energy"] ∧
  categories climate_innovation_caps = Val ["Climate"; "ENERGY"] ∧
  simple_score (Py.lower "Carbon Reduction") climate_innovation
    = simple_score "Carbon Reduction" climate_innovation ∧
  simple_score "Carbon Reduction" climate_innovation
    = simple_score "Carbon Reduction" climate_innovation_caps.
Proof.
  do 4 (split; [reflexivity|]).
  apply (simple_score_ignores_case "Carbon Reduction" climate_innovation
           climate_innovation_caps _ _ _ _ eq_refl eq_refl eq_refl eq_refl);
    reflexivity.
Defined.

(** ** The region filter and letter case *)

(** X14. The region filter does not see letter case: two hints with the
    same lower-casing, against two region values with the same
    lower-casing, give the same decision. *)
Theorem region_filter_ignores_case (req req' : MatchRequest)
    (opp opp' : Fundingopportunity) (hint hint' r r' : string) :
  req_region req = Some hint → req_region req' = Some hint' →
  dict_get (region opp) = Some r → dict_get (region opp') = Some r' →
  Py.lower hint = Py.lower hint' → Py.lower r = Py.lower r' →
  region_skip req opp = region_skip req' opp'.
Proof.
  intros Hh Hh' Hr Hr' Hhl Hrl. unfold region_skip.
  rewrite Hh, Hh', Hr, Hr'. cbn [default from_option id].
  by rewrite (lower_truthy _ _ Hhl), (lower_truthy _ _ Hrl), Hhl, Hrl.
Qed.

Lemma region_filter_ignores_case_witness :
  req_region climate_req = Some "US" ∧ req_region us_lower_req = Some "us" ∧
  dict_get (region climate_innovation) = Some "US" ∧
  dict_get (region climate_innovation_caps) = Some "us" ∧
  region_skip climate_req climate_innovation
    = region_skip us_lower_req climate_innovation_caps.
Proof.
  do 4 (split; [reflexivity|]).
  apply (region_filter_ignores_case climate_req us_lower_req climate_innovation
           climate_innovation_caps "US" "us" "US" "us"); reflexivity.
Defined.

(** ** Tags and longer texts *)

Lemma occurs_app_l kw a b : occurs kw a → occurs kw (a +:+ b).
Proof.
  intros (pre & post & ->). exists pre, (post +:+ b).
  by rewrite !append_assoc.
Qed.

Lemma occurs_app_r kw a b : occurs kw b → occurs kw (a +:+ b).
Proof.
  intros (pre & post & ->). exists (a +:+ pre), post.
  by rewrite append_assoc.
Qed.

Lemma triggered_app text text' k :
  triggered text k ∨ triggered text' k → triggered (text +:+ text') k.
Proof.
  unfold triggered. rewrite lower_app.
  intros [(kws & kw & ? & ? & Hocc) | (kws & kw & ? & ? & Hocc)];
    exists kws, kw; (split_and!; [done | done |]).
  - by apply occurs_app_l.
  - by apply occurs_app_r.
Qed.

Lemma elem_of_extract_categories text k :
  k ∈ extract_categories text ↔
  triggered text k ∨ k = "general" ∧ ∀ k', ¬ triggered text k'.
Proof.
  rewrite extract_categories_lower.
  pose proof (triggered_tags_spec text) as Hspec.
  destruct (triggered_tags KEYWORD_MAP (Py.lower text)) as [|t tags];
    cbn [Py.list_or].
  - rewrite list_elem_of_singleton. split.
    + intros ->. right. split; [done|]. intros k' Hk'%Hspec.
      by apply elem_of_nil in Hk'.
    + intros [Hk%Hspec | [-> _]]; [by apply elem_of_nil in Hk | done].
  - rewrite Hspec. split; [by left|].
    intros [? | [_ Hnone]]; [done|]. destruct (Hnone t). apply Hspec. left.
Qed.

Lemma triggered_not_general text : ¬ triggered text "general".
Proof.
  intros (kws & kw & Hin & _). apply general_not_a_tag.
  apply list_elem_of_fmap. by exists ("general", kws).
Qed.

(** X15. Lengthening a text never loses a tag of the keyword map: a tag
    other than "general" found in a text is found in every text that
    starts or ends with it. *)
Theorem extract_categories_grows (text more k : string) :
  k ≠ "general" →
  k ∈ extract_categories text →
  k ∈ extract_categories (text +:+ more) ∧
  k ∈ extract_categories (more +:+ text).
Proof.
  intros Hk [Htrig | [? _]]%elem_of_extract_categories; [|done].
  split; apply elem_of_extract_categories; left; apply triggered_app; auto.
Qed.

Lemma extract_categories_grows_witness :
  "ai" ≠ "general" ∧
  "ai" ∈ extract_categories "machine learning" ∧
  "ai" ∈ extract_categories ("machine learning" +:+ " for farms") ∧
  "ai" ∈ extract_categories (" for farms" +:+ "machine learning").
Proof.
  split; [discriminate|].
  assert ("ai" ∈ extract_categories "machine learning") as Hin
    by (vm_compute; left).
  split; [exact Hin|].
  apply (extract_categories_grows "machine learning" " for farms" "ai");
    [discriminate | exact Hin].
Defined.

(** X16. The detected categories of an answer contain every tag of the
    keyword map that the extractor finds in the description alone, and
    every one it finds in the sector hint alone. *)
Theorem detected_categories_cover (db : option (list Fundingopportunity))
    (utcnow : string) (req : MatchRequest) (resp : Response) (k : string) :
  match_opportunities db utcnow req = Ok resp →
  k ≠ "general" →
  k ∈ extract_categories (req_description req) ∨
  (∃ hint, req_sector req = Some hint ∧ k ∈ extract_categories hint) →
  k ∈ detected_categories (report resp).
Proof.
  intros (_ & _ & _ & _ & ->)%match_opportunities_inv Hk Hfound.
  unfold extractor_input. apply elem_of_extract_categories. left.
  destruct Hfound as [Hd | (hint & Hs & Hh)].
  - apply elem_of_extract_categories in Hd as [Hd | [? _]]; [|done].
    apply triggered_app. by left.
  - apply elem_of_extract_categories in Hh as [Hh | [? _]]; [|done].
    apply triggered_app. right. apply triggered_app. right.
    by rewrite Hs, str_or_default.
Qed.

Lemma detected_categories_cover_witness :
  ∃ resp,
    match_opportunities None "" garden_health_req = Ok resp ∧
    "health" ≠ "general" ∧
    ("health" ∈ extract_categories (req_description garden_health_req) ∨
     (∃ hint, req_sector garden_health_req = Some hint ∧
              "health" ∈ extract_categories hint)) ∧
    "health" ∈ detected_categories (report resp).
Proof.
  eexists. split; [vm_compute; reflexivity|].
  split; [discriminate|].
  assert (∃ hint, req_sector garden_health_req = Some hint ∧
                  "health" ∈ extract_categories hint) as Hhint
    by (exists "health"; split; [reflexivity | vm_compute; left]).
  split; [right; exact Hhint|].
  apply (detected_categories_cover None "" garden_health_req _ "health");
    [vm_compute; reflexivity | discriminate | right; exact Hhint].
Defined.

(** ** Words *)

Lemma append_nil_r (s : string) : s +:+ "" = s.
Proof.
  induction s as [|c s IH]; [done|].
  change (String c (s +:+ "") = String c s). by rewrite IH.
Qed.

Lemma split_from_app_space a w sp b :
  Py.isspace sp = true →
  Py.split_from w (a +:+ String sp b) = Py.split_from w a ++ Py.split b.
Proof.
  intros Hsp. revert w. induction a as [|c a IH]; intros w.
  - change ("" +:+ String sp b) with (String sp b).
    cbn [Py.split_from]. rewrite Hsp. by destruct w.
  - change (String c a +:+ String sp b) with (String c (a +:+ String sp b)).
    cbn [Py.split_from]. destruct (Py.isspace c), w; by rewrite IH.
Qed.

Lemma split_from_no_space s w :
  has_space s = false → Py.split_from (Some w) s = [w +:+ s].
Proof.
  revert w. induction s as [|c s IH]; intros w; cbn [has_space Py.split_from].
  - by rewrite append_nil_r.
  - intros [Hc Hs]%orb_false_iff. rewrite Hc, (IH _ Hs).
    by rewrite append_assoc.
Qed.

Lemma split_word w : is_word w → Py.split w = [w].
Proof.
  intros [Hne Hsp]. destruct w as [|c w]; [done|].
  cbn [has_space] in Hsp. apply orb_false_iff in Hsp as [Hc Hs].
  unfold Py.split. cbn [Py.split_from]. rewrite Hc.
  by rewrite (split_from_no_space _ _ Hs).
Qed.

Lemma split_all_space s : all_space s = true → Py.split s = [].
Proof.
  unfold Py.split. induction s as [|c s IH]; [done|].
  cbn [all_space Py.split_from]. intros [-> Hs]%andb_true_iff. by apply IH.
Qed.

Lemma split_join_words ws :
  Forall is_word ws → Py.split (Py.join " " ws) = ws.
Proof.
  induction 1 as [|w ws Hw Hws IH]; [done|].
  destruct ws as [|w' ws]; [by apply split_word|].
  change (Py.join " " (w :: w' :: ws))
    with (w +:+ String " " (Py.join " " (w' :: ws))).
  unfold Py.split at 1. rewrite split_from_app_space by done.
  fold (Py.split w). by rewrite (split_word _ Hw), IH.
Qed.

Lemma isspace_lower_char c : Py.isspace (Py.lower_char c) = Py.isspace c.
Proof. by destruct c as [[] [] [] [] [] [] [] []]. Qed.

Lemma has_space_lower s : has_space (Py.lower s) = has_space s.
Proof.
  induction s as [|c s IH]; [done|]. cbn. by rewrite isspace_lower_char, IH.
Qed.

Lemma all_space_lower s : all_space (Py.lower s) = all_space s.
Proof.
  induction s as [|c s IH]; [done|]. cbn. by rewrite isspace_lower_char, IH.
Qed.

Lemma is_word_lower w : is_word w → is_word (Py.lower w).
Proof.
  intros [Hne Hsp]. split; [by destruct w | by rewrite has_space_lower].
Qed.

Lemma word_set_app_space a b :
  word_set (a +:+ " " +:+ b) = word_set a ∪ word_set b.
Proof.
  unfold word_set. rewrite !lower_app.
  change (Py.lower " " +:+ Py.lower b) with (String " " (Py.lower b)).
  unfold Py.split at 1. rewrite split_from_app_space by done.
  apply list_to_set_app_L.
Qed.

Lemma word_set_word w : is_word w → word_set w = {[ Py.lower w ]}.
Proof.
  intros Hw%is_word_lower. unfold word_set. rewrite (split_word _ Hw).
  cbn. by rewrite union_empty_r_L.
Qed.

Lemma word_set_all_space s : all_space s = true → word_set s = ∅.
Proof.
  intros Hs. unfold word_set. rewrite split_all_space; [done|].
  by rewrite all_space_lower.
Qed.

Lemma word_set_join cs :
  word_set (Py.join " " cs) = ⋃ (word_set <$> cs).
Proof.
  induction cs as [|c [|c' cs] IH]; [done | |].
  - cbn. by rewrite union_empty_r_L.
  - change (Py.join " " (c :: c' :: cs))
      with (c +:+ " " +:+ Py.join " " (c' :: cs)).
    by rewrite word_set_app_space, IH.
Qed.


Lemma category_tag_in_words opp c :
  c ∈ category_list opp → is_word c → Py.lower c ∈ opportunity_words opp.
Proof.
  intros Hc Hw. unfold opportunity_words, comparison_text.
  rewrite word_set_app_space, word_set_join. fold (category_list opp).
  apply elem_of_union_r.
  apply elem_of_union_list. exists (word_set c). split.
  - apply list_elem_of_fmap. by exists c.
  - rewrite (word_set_word _ Hw). by apply elem_of_singleton.
Qed.

(** X18. A query of at most five distinct words that contains, in any
    letter case, a category tag of the document (a tag without white
    space) has a base score of at least 20. *)
Theorem simple_score_names_a_category (query : string)
    (opp : Fundingopportunity) (c : string) (s : Q) :
  simple_score query opp = Ok s →
  (size (word_set query) ≤ 5)%nat →
  c ∈ category_list opp → is_word c →
  Py.lower c ∈ word_set query →
  (20 <= s)%Q.
Proof.
  intros Hs Hshort Hc Hw Hq.
  apply simple_score_inv in Hs as [_ Hs].
  rewrite Hs, (base_score_formula_short _ opp Hshort).
  change 20%Q with (inject_Z 20). rewrite <- Zle_Qle.
  assert (overlap_count query opp ≠ 0%nat); [|lia].
  unfold overlap_count. rewrite size_empty_iff.
  intros Hempty. apply (not_elem_of_empty (C := gset string) (Py.lower c)).
  rewrite <- (leibniz_equiv _ _ Hempty). apply elem_of_intersection.
  split; [done | by apply category_tag_in_words].
Qed.

Lemma simple_score_names_a_category_witness :
  ∃ s, simple_score "ENERGY storage" climate_innovation = Ok s ∧
       (size (word_set "ENERGY storage") ≤ 5)%nat ∧
       "energy" ∈ category_list climate_innovation ∧
       is_word "energy" ∧
       Py.lower "energy" ∈ word_set "ENERGY storage" ∧
       (20 <= s)%Q.
Proof.
  eexists. split; [vm_compute; reflexivity|].
  assert ("energy" ∈ category_list climate_innovation) as Hc
    by (vm_compute; right; left).
  assert (is_word "energy") as Hw by (split; [discriminate | reflexivity]).
  assert (Py.lower "energy" ∈ word_set "ENERGY storage") as Hq.
  { apply (bool_decide_unpack _). vm_compute. reflexivity. }
  split; [vm_compute; lia|]. split; [exact Hc|]. split; [exact Hw|].
  split; [exact Hq|].
  apply (simple_score_names_a_category "ENERGY storage" climate_innovation
           "energy"); [vm_compute; reflexivity | vm_compute; lia | exact Hc
           | exact Hw | exact Hq].
Defined.

(** X19. A query made of white space only has no words: on a document
    whose categories are not null the scorer returns exactly 0, as for
    the empty query. *)
Theorem simple_score_blank_query (query : string) (opp : Fundingopportunity) :
  all_space query = true → categories opp ≠ Null →
  simple_score query opp = Ok 0%Q.
Proof.
  intros Hblank Hc%categories_not_null.
  rewrite (simple_score_unfold _ _ _ Hc). cbv zeta.
  by rewrite (word_set_all_space _ Hblank), decide_True.
Qed.

Lemma simple_score_blank_query_witness :
  all_space (String "009" "  ") = true ∧
  categories climate_innovation ≠ Null ∧
  simple_score (String "009" "  ") climate_innovation = Ok 0%Q.
Proof.
  split; [reflexivity|]. split; [simpl; discriminate|].
  apply (simple_score_blank_query (String "009" "  ") climate_innovation);
    [reflexivity | simpl; discriminate].
Defined.

(** ** The [/test] endpoint *)

(** X20. Whatever the database handle, the [database_url] and
    [database_name] fields of the diagnostic only tell whether the
    environment variables DATABASE_URL and DATABASE_NAME are set to a
    non-empty value: what the handler first writes there from the
    handle is always overwritten. *)
Theorem test_database_env_fields (db : option Database)
    (DATABASE_URL DATABASE_NAME : option string) :
  let response := test_database db DATABASE_URL DATABASE_NAME in
  database_url response
    = Some (if Py.truthy DATABASE_URL then "✅ Set" else "❌ Not Set") ∧
  database_name response
    = Some (if Py.truthy DATABASE_NAME then "✅ Set" else "❌ Not Set") ∧
  backend response = "✅ Running".
Proof.
  cbv zeta. unfold test_database.
  destruct db as [[name [names|message]]|]; done.
Qed.

Lemma length_str_take n s : (String.length (str_take n s) ≤ n)%nat.
Proof.
  revert s. induction n as [|n IH]; intros [|c s]; cbn; try lia.
  specialize (IH s). lia.
Qed.

Lemma str_take_prefix n s : ∃ rest, s = str_take n s +:+ rest.
Proof.
  revert s. induction n as [|n IH]; intros [|c s]; cbn;
    [by exists "" | by eexists | by exists "" |].
  destruct (IH s) as [rest Hrest]. exists rest.
  change (String c s = String c (str_take n s +:+ rest)). by rewrite <- Hrest.
Qed.

(** X21. The diagnostic reports "Connected" exactly when a database
    handle is configured, also when listing its collections fails. It
    lists at most ten collections, the first ones the store names, and
    none unless the listing succeeded; the [database] text is
    "Connected & Working" when the listing succeeded, the error text cut
    to 50 characters when it raised, and "Available but not initialized"
    without a handle; the initial "Not Available" is never returned. *)
Theorem test_database_status (db : option Database)
    (DATABASE_URL DATABASE_NAME : option string) :
  let response := test_database db DATABASE_URL DATABASE_NAME in
  (connection_status response = "Connected" ↔ is_Some db) ∧
  (connection_status response = "Not Connected" ↔ db = None) ∧
  (length (collections response) ≤ 10)%nat ∧
  database response ≠ "❌ Not Available" ∧
  match db with
  | None =>
      collections response = [] ∧
      database response = "⚠️  Available but not initialized"
  | Some handle =>
      match list_collection_names handle with
      | Returns names =>
          collections response = take 10 names ∧
          database response = "✅ Connected & Working"
      | Raises message =>
          collections response = [] ∧
          ∃ shown rest,
            database response = "⚠️  Connected but Error: " +:+ shown ∧
            message = shown +:+ rest ∧
            (String.length shown ≤ 50)%nat
      end
  end.
Proof.
  cbv zeta. unfold test_database.
  destruct db as [[name [names|message]]|]; cbn;
    split_and!; try done; try lia; try (rewrite length_take; lia);
    try (split; [by eexists | done]); try (split; [done | by intros [? ?]]).
  destruct (str_take_prefix 50 message) as [rest Hrest].
  exists (str_take 50 message), rest.
  split_and!; [done | done | apply length_str_take].
Qed.

(** ** Documents outside the region *)

Lemma region_kept_idem req sample :
  region_kept req (region_kept req sample) = region_kept req sample.
Proof.
  induction sample as [|opp rest IH]; [done|].
  rewrite region_kept_cons. destruct (region_skip req opp) eqn:Hskip; [done|].
  by rewrite region_kept_cons, Hskip, IH.
Qed.

Lemma match_loop_region_kept cats req sample acc :
  match_loop cats req (region_kept req sample) acc
  = match_loop cats req sample acc.
Proof.
  revert acc. induction sample as [|opp rest IH]; intros acc; [done|].
  rewrite region_kept_cons. cbn [match_loop].
  destruct (region_skip req opp) eqn:Hskip; [apply IH|].
  cbn [match_loop]. rewrite Hskip.
  destruct (score_opportunity cats req opp); cbn [mbind result_bind]; [apply IH | done].
Qed.

(** X22. The documents the region filter skips have no effect on the
    answer: the handler gives the same answer, or raises the same
    exception, on a store as on the store reduced to the documents that
    pass the filter. *)
Theorem skipped_documents_do_not_matter (documents : list Fundingopportunity)
    (utcnow : string) (req : MatchRequest) :
  match_opportunities (Some documents) utcnow req
  = match_opportunities (Some (region_kept req documents)) utcnow req.
Proof.
  unfold match_opportunities. by rewrite match_loop_region_kept.
Qed.

(** ** Where the results come from *)

Lemma score_opportunity_fields cats req opp item :
  score_opportunity cats req opp = Ok item →
  item_title item = dict_get (title opp) ∧
  item_agency item = dict_get (agency opp) ∧
  item_url item = dict_get (url opp) ∧
  item_amount item = dict_get (amount opp) ∧
  item_deadline item = dict_get (deadline opp) ∧
  item_region item = dict_get (region opp) ∧
  item_categories item = dict_get_default (categories opp) [] ∧
  item_eligibility item = dict_get_default (eligibility opp) [].
Proof.
  unfold score_opportunity.
  destruct (simple_score (req_description req) opp); cbn; [|done].
  destruct (bonus_of cats req opp); cbn; [|done].
  by intros [= <-].
Qed.

(** X23. The handler invents no result: every result is the scored
    form of a fetched document that passes the region filter, and
    carries that document's title, agency, url, amount, deadline and
    region (null when missing) and its categories and eligibility (the
    empty list when missing) unchanged. *)
Theorem results_come_from_documents (db : option (list Fundingopportunity))
    (utcnow : string) (req : MatchRequest) (resp : Response)
    (item : MatchResult) :
  match_opportunities db utcnow req = Ok resp →
  item ∈ results resp →
  ∃ opp, opp ∈ fetched db ∧ ¬ region_excluded req opp ∧
    item_title item = dict_get (title opp) ∧
    item_agency item = dict_get (agency opp) ∧
    item_url item = dict_get (url opp) ∧
    item_amount item = dict_get (amount opp) ∧
    item_deadline item = dict_get (deadline opp) ∧
    item_region item = dict_get (region opp) ∧
    item_categories item = dict_get_default (categories opp) [] ∧
    item_eligibility item = dict_get_default (eligibility opp) [].
Proof.
  intros Hresp Hitem.
  destruct (results_scored _ _ _ _ _ Hresp Hitem) as (opp & Hopp & Hkeep & Hscore).
  exists opp. split; [done|]. split.
  - rewrite <- region_skip_spec. by rewrite Hkeep.
  - by apply (score_opportunity_fields _ _ _ _ Hscore).
Qed.

Lemma results_come_from_documents_witness :
  ∃ resp item,
    match_opportunities None "" climate_req = Ok resp ∧
    item ∈ results resp ∧
    ∃ opp, opp ∈ fetched None ∧ ¬ region_excluded climate_req opp ∧
      item_title item = dict_get (title opp) ∧
      item_agency item = dict_get (agency opp) ∧
      item_url item = dict_get (url opp) ∧
      item_amount item = dict_get (amount opp) ∧
      item_deadline item = dict_get (deadline opp) ∧
      item_region item = dict_get (region opp) ∧
      item_categories item = dict_get_default (categories opp) [] ∧
      item_eligibility item = dict_get_default (eligibility opp) [].
Proof.
  eexists. eexists. split; [vm_compute; reflexivity|].
  assert (∀ x : MatchResult, x ∈ [x]) as Hhere by (intros x; left).
  split; [apply Hhere|].
  eapply (results_come_from_documents None "" climate_req);
    [vm_compute; reflexivity | apply Hhere].
Defined.

(** X24. With a non-empty region hint, every result that has a
    non-empty region matches the hint: the lower-cased hint occurs in
    the result's lower-cased region. *)
Theorem results_match_region_hint (db : option (list Fundingopportunity))
    (utcnow : string) (req : MatchRequest) (resp : Response)
    (item : MatchResult) (hint r : string) :
  match_opportunities db utcnow req = Ok resp →
  item ∈ results resp →
  req_region req = Some hint →
  item_region item = Some r → r ≠ "" →
  occurs (Py.lower hint) (Py.lower r).
Proof.
  intros Hresp Hitem Hhint Hr Hne.
  destruct (results_scored _ _ _ _ _ Hresp Hitem) as (opp & _ & Hkeep & Hscore).
  apply score_opportunity_fields in Hscore as (_ & _ & _ & _ & _ & Hregion & _).
  rewrite Hr in Hregion.
  destruct (Py.str_in (Py.lower hint) (Py.lower r)) eqn:Hin;
    [by apply str_in_spec|].
  exfalso. apply not_true_iff_false in Hkeep. apply Hkeep, region_skip_spec.
  exists hint, r. split_and!; [done | done | done |].
  rewrite <- str_in_spec. by rewrite Hin.
Qed.

Lemma results_match_region_hint_witness :
  ∃ resp item,
    match_opportunities None "" us_lower_req = Ok resp ∧
    item ∈ results resp ∧
    req_region us_lower_req = Some "us" ∧
    item_region item = Some "US" ∧ "US" ≠ "" ∧
    occurs (Py.lower "us") (Py.lower "US").
Proof.
  eexists. eexists. split; [vm_compute; reflexivity|].
  assert (∀ x : MatchResult, x ∈ [x]) as Hhere by (intros x; left).
  split; [apply Hhere|]. split; [reflexivity|]. split; [reflexivity|].
  split; [discriminate|].
  eapply (results_match_region_hint None "" us_lower_req _ _ "us" "US");
    [vm_compute; reflexivity | apply Hhere | reflexivity | reflexivity
    | discriminate].
Defined.
